(** * pynats: the [Connection] class of [pynats/connection.py]

    A shallow embedding of the protocol session of the NATS client: the
    subscription registry, the frames written to the socket, the lines read
    back from it, and the blocking receive loop [wait].

    Python objects are records, the registry dict is a [gmap], byte strings
    are [string]s, and a method of [Connection] is a computation in a
    state-and-exception monad over the attributes of [self].  An exception
    leaves the attributes as they were when it was raised, as in Python. *)

From Stdlib Require Import Ascii String QArith Lqa Sorted.
From stdpp Require Import gmap strings list pretty.
Close Scope Q_scope.
Open Scope string_scope.
Open Scope Z_scope.

(** ** Python values and byte strings *)

(** What a subscription callback may hand back; [wait] only ever tests the
    result with [is False]. *)
Inductive PyVal :=
| PyNone
| PyBool (b : bool)
| PyInt (z : Z)
| PyStr (s : string).

(** [v is False] *)
Definition is_False (v : PyVal) : bool :=
  match v with PyBool false => true | _ => false end.

(** [str.lstrip()], [str.rstrip()] and [str.strip()] without arguments: the
    ASCII white space characters (space, TAB, LF, VT, FF, CR) are removed
    from the ends. *)
Fixpoint lstrip (s : string) : string :=
  match s with
  | "" => ""
  | String c s' => if Ascii.is_space c then lstrip s' else s
  end.

Fixpoint rstrip (s : string) : string :=
  match s with
  | "" => ""
  | String c s' =>
      match rstrip s' with
      | "" => if Ascii.is_space c then "" else String c ""
      | r => String c r
      end
  end.

Definition strip (s : string) : string := lstrip (rstrip s).

(** [s.split(' ', 1)[0]]: everything before the first space character (the
    whole string when there is none; never an IndexError). *)
Fixpoint split_first (s : string) : string :=
  match s with
  | "" => ""
  | String c s' => if Ascii.eqb c " "%char then "" else String c (split_first s')
  end.

(** [file.readline()] on a binary stream: the bytes up to and including the
    first LF, or everything that is left when there is no LF; the empty
    string at end of stream.  Returns the line and the rest of the stream. *)
Fixpoint readline_of (s : string) : string * string :=
  match s with
  | "" => ("", "")
  | String c s' =>
      if Ascii.eqb c "010"%char then (String c "", s')
      else let '(l, r) := readline_of s' in (String c l, r)
  end.

(** ** Exceptions *)

(** The regular expressions of [pynats/commands.py] that [connection.py]
    imports by name. *)
Inductive Command := MSG | INFO | PING | PONG | OK.

Global Instance Command_eq_dec : EqDecision Command.
Proof. solve_decision. Defined.

(** The three exception classes of [connection.py], [socket.error], and the
    built-in exceptions that the methods can raise. *)
Inductive exn :=
| socket_error
| SocketError
| UnexpectedResponse (line : string)
| UnknownResponse (pattern : Command) (line : string)
| KeyError (key : string)
| AttributeError
| ValueError
| TypeError.

Global Instance exn_eq_dec : EqDecision exn.
Proof. solve_decision. Defined.

(** [type(e).__name__] *)
Definition exn_name (e : exn) : string :=
  match e with
  | socket_error => "error"
  | SocketError => "SocketError"
  | UnexpectedResponse _ => "UnexpectedResponse"
  | UnknownResponse _ _ => "UnknownResponse"
  | KeyError _ => "KeyError"
  | AttributeError => "AttributeError"
  | ValueError => "ValueError"
  | TypeError => "TypeError"
  end.

(** The outcome of a call: a value, an exception, or [Diverged] when the
    fuel of the receive loop ran out (see [wait_loop]). *)
Inductive result (A : Type) :=
| Return (a : A)
| Raise (e : exn)
| Diverged.
Arguments Return {A} a.
Arguments Raise {A} e.
Arguments Diverged {A}.

(** [int(x)] for the text of a regular expression group: [None] (a group
    that did not take part in the match) is a TypeError; otherwise white
    space is stripped, one sign is allowed, and the rest must be a non-empty
    run of decimal digits. *)
Fixpoint digits (acc : Z) (s : string) : option Z :=
  match s with
  | "" => Some acc
  | String c s' =>
      match Ascii.is_nat c with
      | Some d => digits (10 * acc + Z.of_nat d) s'
      | None => None
      end
  end.

Definition unsigned (s : string) : option Z :=
  match s with
  | "" => None
  | _ => digits 0 s
  end.

Definition int (x : option string) : result Z :=
  match x with
  | None => Raise TypeError
  | Some s =>
      let parsed :=
        match strip s with
        | String "-"%char r => Z.opp <$> unsigned r
        | String "+"%char r => unsigned r
        | r => unsigned r
        end in
      match parsed with
      | Some z => Return z
      | None => Raise ValueError
      end
  end.

(** ** Messages and subscriptions *)

Module Message.
(** Modelled from the spec: [pynats/message.py] is not among the sources;
    a Message is a value with the four fields that [_handle_msg] passes to
    its constructor (subscription id, declared byte size, payload,
    optional reply subject). *)
Record t := Message {
  sid : Z;
  size : Z;
  data : string;
  reply : option string
}.

Global Instance eq_dec : EqDecision t.
Proof. solve_decision. Defined.
End Message.

Module Subscription.
(** Modelled from the spec: [pynats/subscription.py] is not among the
    sources; a Subscription is a passive record binding an identifier, a
    subject, a queue group and a callback.  The back reference to the
    connection ([connetion=self]) is left out: nothing reads it. *)
Record t := Subscription {
  sid : Z;
  subject : string;
  queue : string;
  callback : Message.t → PyVal
}.

(** Modelled from the spec: [handle_msg] forwards the delivered message to
    the callback and hands its result back. *)
Definition handle_msg (s : t) (msg : Message.t) : PyVal := callback s msg.
End Subscription.

(** ** The command table and the clock *)

(** [pynats/commands.py] is not among the sources.  What [connection.py]
    uses of it is the dict [commands] from protocol verbs to patterns and,
    for each pattern, [match]; a successful match is represented by its
    [groupdict()]. *)
Class CommandTable := {
  commands : gmap string Command;
  command_match : Command → string → option (gmap string (option string))
}.

(** [time.time()]: the reading returned by the n-th call since the session
    was created, in seconds. *)
Class Clock := { time_time : nat → Q }.

(** ** The session *)

(** The socket object: the argument of every [sendall] so far, oldest
    first, and whether the next [sendall] raises [socket.error]. *)
Record socket := Socket {
  sock_sent : list string;
  sock_down : bool
}.

(** The file object made by [makefile('rb')]: the bytes the broker has
    written that have not been read yet, and whether the next [readline]
    raises [socket.error]. *)
Record socket_file := SocketFile {
  file_pending : string;
  file_down : bool
}.

(** The attributes of a [Connection] that the methods below touch, and two
    histories of what the session did to its surroundings: how many times
    the clock was read, and the messages handed to callbacks, oldest
    first. *)
Record State := mkState {
  _socket : option socket;
  _socket_file : option socket_file;
  _subscriptions : gmap Z Subscription.t;
  _next_sid : Z;
  ticks : nat;
  delivered : list Message.t
}.

(** [Connection.__init__]: no transport, an empty registry, ids from 1. *)
Definition Connection : State :=
  {| _socket := None; _socket_file := None;
     _subscriptions := ∅; _next_sid := 1;
     ticks := 0; delivered := [] |}.

Definition set_socket (f : option socket → option socket) (st : State) :=
  {| _socket := f (_socket st); _socket_file := _socket_file st;
     _subscriptions := _subscriptions st; _next_sid := _next_sid st;
     ticks := ticks st; delivered := delivered st |}.

Definition set_socket_file (f : option socket_file → option socket_file)
    (st : State) :=
  {| _socket := _socket st; _socket_file := f (_socket_file st);
     _subscriptions := _subscriptions st; _next_sid := _next_sid st;
     ticks := ticks st; delivered := delivered st |}.

Definition set_subscriptions
    (f : gmap Z Subscription.t → gmap Z Subscription.t) (st : State) :=
  {| _socket := _socket st; _socket_file := _socket_file st;
     _subscriptions := f (_subscriptions st); _next_sid := _next_sid st;
     ticks := ticks st; delivered := delivered st |}.

Definition set_next_sid (f : Z → Z) (st : State) :=
  {| _socket := _socket st; _socket_file := _socket_file st;
     _subscriptions := _subscriptions st; _next_sid := f (_next_sid st);
     ticks := ticks st; delivered := delivered st |}.

Definition set_ticks (f : nat → nat) (st : State) :=
  {| _socket := _socket st; _socket_file := _socket_file st;
     _subscriptions := _subscriptions st; _next_sid := _next_sid st;
     ticks := f (ticks st); delivered := delivered st |}.

Definition set_delivered (f : list Message.t → list Message.t) (st : State) :=
  {| _socket := _socket st; _socket_file := _socket_file st;
     _subscriptions := _subscriptions st; _next_sid := _next_sid st;
     ticks := ticks st; delivered := f (delivered st) |}.

(** ** The monad of methods *)

Definition M (A : Type) : Type := State → State * result A.

Definition ret {A} (a : A) : M A := λ st, (st, Return a).
Definition raise {A} (e : exn) : M A := λ st, (st, Raise e).
Definition bind {A B} (m : M A) (k : A → M B) : M B :=
  λ st, match m st with
        | (st', Return a) => k a st'
        | (st', Raise e) => (st', Raise e)
        | (st', Diverged) => (st', Diverged)
        end.
Definition gets {A} (f : State → A) : M A := λ st, (st, Return (f st)).
Definition modify (f : State → State) : M unit := λ st, (f st, Return tt).
Definition lift {A} (r : result A) : M A := λ st, (st, r).

Global Instance M_ret : MRet M := @ret.
Global Instance M_bind : MBind M := λ A B k m, bind m k.


(** ** The transport, the clock and the callbacks *)

Definition CRLF : string := String "013"%char (String "010"%char "").

(** [self._socket.sendall(data)]; [self._socket] is [None] until
    [connect]. *)
Definition sendall (data : string) : M unit := λ st,
  match _socket st with
  | None => (st, Raise AttributeError)
  | Some sk =>
      if sock_down sk then (st, Raise socket_error)
      else (set_socket (λ _, Some (Socket (sock_sent sk ++ [data])%list false)) st,
            Return tt)
  end.

(** [self._socket_file.readline()] *)
Definition readline : M string := λ st,
  match _socket_file st with
  | None => (st, Raise AttributeError)
  | Some f =>
      if file_down f then (st, Raise socket_error)
      else let '(line, rest) := readline_of (file_pending f) in
           (set_socket_file (λ _, Some (SocketFile rest false)) st, Return line)
  end.

(** [time.time()] *)
Definition time `{!Clock} : M Q := λ st,
  (set_ticks S st, Return (time_time (ticks st))).

(** [s.handle_msg(msg)] for a subscription [s] found in the registry; the
    call is recorded in [delivered]. *)
Definition call_handle_msg (s : Subscription.t) (msg : Message.t) : M PyVal :=
  λ st, (set_delivered (λ l, (l ++ [msg])%list) st,
         Return (Subscription.handle_msg s msg)).

(** [data[key]] on the dict of a match *)
Definition getitem (data : gmap string (option string)) (key : string)
    : result (option string) :=
  match data !! key with
  | Some v => Return v
  | None => Raise (KeyError key)
  end.

(** [bool(x)] for a number *)
Definition truthy (x : Z) : bool := negb (x =? 0).
Definition truthyQ (x : Q) : bool := negb (Qeq_bool x 0).

(** [bool(duration)]: [None] and zero are false. *)
Definition duration_set (duration : option Q) : bool :=
  match duration with
  | Some d => truthyQ d
  | None => false
  end.

(** What has been sent so far, and what is waiting to be read. *)
Definition sent (st : State) : list string :=
  match _socket st with Some sk => sock_sent sk | None => [] end.
Definition pending (st : State) : string :=
  match _socket_file st with Some f => file_pending f | None => "" end.

(** ** The methods of [Connection] *)

(** [SocketError.wrap]: a [socket.error] of the wrapped call becomes a
    [SocketError]; anything else passes through. *)
Definition SocketError_wrap {A} (wrapped_function : M A) : M A := λ st,
  match wrapped_function st with
  | (st', Raise socket_error) => (st', Raise SocketError)
  | r => r
  end.

Definition _send (command : string) : M unit :=
  SocketError_wrap (sendall (command ++ CRLF)).

Definition _get_command `{!CommandTable} (line : string) : option Command :=
  let values0 := split_first (strip line) in
  commands !! values0.

Definition _recv `{!CommandTable} (expected_commands : list Command)
    : M (Command * gmap string (option string)) :=
  line ← SocketError_wrap readline;
  match _get_command line with
  | Some command =>
      if bool_decide (command ∈ expected_commands) then
        match command_match command line with
        | Some result => mret (command, result)
        | None => raise (UnknownResponse command line)
        end
      else raise (UnexpectedResponse line)
  | None => raise (UnexpectedResponse line)
  end.

Definition ping `{!CommandTable} : M unit :=
  _send "PING";;
  _recv [PONG];;
  mret tt.

Definition subscribe (subject : string) (callback : Message.t → PyVal)
    : M Subscription.t :=
  next ← gets _next_sid;
  let s := Subscription.Subscription next subject "" callback in
  modify (set_subscriptions <[Subscription.sid s := s]>);;
  _send ("SUB " ++ Subscription.subject s ++ " " ++ Subscription.queue s
         ++ " " ++ pretty (Subscription.sid s));;
  modify (set_next_sid (λ n, n + 1));;
  mret s.

(** [self._subscriptions.pop(key)]: a missing key raises [KeyError]. *)
Definition subscriptions_pop (key : Z) : M Subscription.t := λ st,
  match _subscriptions st !! key with
  | Some s => (set_subscriptions (delete key) st, Return s)
  | None => (st, Raise (KeyError (pretty key)))
  end.

Definition unsubscribe (subscription : Subscription.t) : M unit :=
  _send ("UNSUB " ++ pretty (Subscription.sid subscription));;
  subscriptions_pop (Subscription.sid subscription);;
  mret tt.

Definition publish (subject msg : string) (reply : option string) : M unit :=
  let command :=
    match reply with
    | None => "PUB " ++ subject ++ " " ++ pretty (String.length msg)
    | Some reply =>
        "PUB " ++ subject ++ " " ++ reply ++ " " ++ pretty (String.length msg)
    end in
  _send command;;
  _send msg.

Definition _handle_msg (result : gmap string (option string)) : M PyVal :=
  let data := result in
  sid ← lift (match getitem data "sid" with
              | Return x => int x
              | Raise e => Raise e
              | Diverged => Diverged
              end);
  size ← lift (match getitem data "size" with
               | Return x => int x
               | Raise e => Raise e
               | Diverged => Diverged
               end);
  line ← SocketError_wrap readline;
  reply ← lift (getitem data "reply");
  let msg := Message.Message sid size (strip line) (strip <$> reply) in
  s ← gets (λ st, _subscriptions st !! sid);
  match s with
  | Some s => call_handle_msg s msg
  | None => raise AttributeError
  end.

Definition _handle_ping : M unit := _send "PONG".

(** The condition of the last [if] of the loop,
    [duration and time.time() - time.time() - start]: the clock is read
    twice, left operand first, and only when [duration] is set and not
    zero. *)
Definition duration_test `{!Clock} (duration : option Q) (start : Q) : M bool :=
  if duration_set duration then
    t1 ← time;
    t2 ← time;
    mret (truthyQ (t1 - t2 - start)%Q)
  else mret false.

(** One turn of the [while True] of [wait]: the new [total] and whether a
    [break] was taken. *)
Definition wait_body `{!CommandTable, !Clock}
    (duration : option Q) (count : Z) (start : Q) (total : Z)
    : M (bool * Z) :=
  '(type, result) ← _recv [MSG; PING; OK];
  match type with
  | MSG =>
      let total := total + 1 in
      r ← _handle_msg result;
      if is_False r then mret (true, total)
      else if truthy count && (count >=? total) then
        mret (true, total)
      else
        stop ← duration_test duration start;
        mret (stop, total)
  | PING =>
      _handle_ping;;
      stop ← duration_test duration start;
      mret (stop, total)
  | _ =>
      stop ← duration_test duration start;
      mret (stop, total)
  end.

(** The loop itself.  It has no bound in the source; [fuel] bounds the
    number of turns here, and running out of it is [Diverged]. *)
Fixpoint wait_loop `{!CommandTable, !Clock} (fuel : nat)
    (duration : option Q) (count : Z) (start : Q) (total : Z) : M unit :=
  match fuel with
  | O => lift Diverged
  | S fuel =>
      '(stop, total) ← wait_body duration count start total;
      if (stop : bool) then mret tt
      else wait_loop fuel duration count start total
  end.

(** Every turn that does not raise takes at least one byte off the stream
    (an empty line is no command), so one more turn than there are pending
    bytes is enough fuel: see [wait_loop_total]. *)
Definition wait_fuel (st : State) : nat := S (String.length (pending st)).

Definition wait `{!CommandTable, !Clock} (duration : option Q) (count : Z)
    : M unit :=
  start ← time;
  fuel ← gets wait_fuel;
  wait_loop fuel duration count start 0.

Definition close : M unit := mret tt.

(** ** A command table, a clock and sessions to run the methods on *)

(** Whether [line] ends with CR LF, and whether [s] is a decimal number. *)
Fixpoint ends_with_CRLF (line : string) : bool :=
  match line with
  | "" => false
  | String _ rest => String.eqb line CRLF || ends_with_CRLF rest
  end.

Definition is_number (s : string) : bool :=
  match unsigned s with Some _ => true | None => false end.

(** Modelled from the spec: the command table of [pynats/commands.py], which
    is not among the sources.  The verbs and the shape of each line are
    those of the wire protocol: CRLF-terminated lines, [PING], [PONG],
    [+OK], [INFO <json>] and [MSG <subject> <sid> [<reply>] <size>], the
    size being a decimal number. *)
Definition wire_commands : gmap string Command :=
  {[ "MSG" := MSG; "INFO" := INFO; "PING" := PING; "PONG" := PONG;
     "+OK" := OK ]}.

(** Modelled from the spec: the named fields that the [MSG] rule extracts,
    the subject, the subscription id, the optional reply subject ([None]
    when the line has none) and the size, each as the text found on the
    line. *)
Definition msg_groups (subject sid : string) (reply : option string)
    (size : string) : gmap string (option string) :=
  {[ "subject" := Some subject; "sid" := Some sid; "reply" := reply;
     "size" := Some size ]}.

(** Modelled from the spec: the line-matching rule of each verb; the words
    of a line are separated by white space. *)
Definition wire_match (c : Command) (line : string)
    : option (gmap string (option string)) :=
  if ends_with_CRLF line then
    match c, String.words line with
    | MSG, [verb; subject; sid; size] =>
        if bool_decide (verb = "MSG") && is_number size then
          Some (msg_groups subject sid None size)
        else None
    | MSG, [verb; subject; sid; reply; size] =>
        if bool_decide (verb = "MSG") && is_number size then
          Some (msg_groups subject sid (Some reply) size)
        else None
    | INFO, verb :: _ :: _ => if bool_decide (verb = "INFO") then Some ∅ else None
    | PING, [verb] => if bool_decide (verb = "PING") then Some ∅ else None
    | PONG, [verb] => if bool_decide (verb = "PONG") then Some ∅ else None
    | OK, [verb] => if bool_decide (verb = "+OK") then Some ∅ else None
    | _, _ => None
    end
  else None.

Definition wire_table : CommandTable :=
  {| commands := wire_commands; command_match := wire_match |}.

(** A clock that stands still at 1000 seconds, and one that advances by one
    second at every reading. *)
Definition frozen_clock : Clock := {| time_time := λ _, 1000%Q |}.
Definition ticking_clock : Clock :=
  {| time_time := λ n, inject_Z (1000 + Z.of_nat n) |}.

(** A session after [connect], with the given bytes waiting to be read. *)
Definition connected (pending : string) : State :=
  {| _socket := Some (Socket [] false);
     _socket_file := Some (SocketFile pending false);
     _subscriptions := ∅; _next_sid := 1;
     ticks := 0; delivered := [] |}.

(** A callback that returns [None], as one without a [return] does. *)
Definition on_message (msg : Message.t) : PyVal := PyNone.

(** The state a call leaves behind, and its outcome. *)
Definition state_after {A} (m : M A) (st : State) : State := fst (m st).
Definition outcome {A} (m : M A) (st : State) : result A := snd (m st).

(** Two message frames for subscription 1 on subject foo, with the payloads
    hi and yo. *)
Definition two_frames : string :=
  "MSG foo 1 2" ++ CRLF ++ "hi" ++ CRLF ++ "MSG foo 1 2" ++ CRLF ++ "yo" ++ CRLF.

(** Modelled from the spec: the frame a broker delivers to subscription
    [sid] for a payload published on [subject],
    [MSG <subject> <sid> <size>] where the size is the length of the
    payload, then the payload, each followed by CRLF. *)
Definition broker_echo (subject : string) (sid : Z) (payload : string)
    : string :=
  "MSG " ++ subject ++ " " ++ pretty sid ++ " "
  ++ pretty (String.length payload) ++ CRLF ++ payload ++ CRLF.


Definition LF : ascii := "010"%char.

(** The groups of a matched [MSG] line read as subscription id [sid],
    declared size [size] and reply subject [reply]. *)
Definition msg_fields (result : gmap string (option string))
    (sid size : Z) (reply : option string) : Prop :=
  (∃ x, result !! "sid" = Some x ∧ int x = Return sid)
  ∧ (∃ x, result !! "size" = Some x ∧ int x = Return size)
  ∧ result !! "reply" = Some reply.

(** The next line on the stream is [line], a [command] line with match
    [result], and [rest] follows it. *)
Definition next_line `{!CommandTable} (st : State) (command : Command)
    (result : gmap string (option string)) (rest : string) : Prop :=
  ∃ f line,
    _socket_file st = Some f ∧ file_down f = false
    ∧ readline_of (file_pending f) = (line, rest)
    ∧ _get_command line = Some command
    ∧ command_match command line = Some result.

(** A computation that never runs out of fuel and never puts bytes back on
    the stream. *)
Definition tame {A} (m : M A) : Prop :=
  ∀ st, (String.length (pending (m st).1) ≤ String.length (pending st))%nat
        ∧ (m st).2 ≠ Diverged.

(** The broker writes [bytes] to the connection. *)
Definition broker_delivers (bytes : string) (st : State) : State :=
  set_socket_file
    (fmap (λ f, SocketFile (file_pending f ++ bytes) (file_down f))) st.

(** Publish [payload] on subject foo from a connected session subscribed to
    foo, let the broker echo it, and receive one message, with the wire
    command table: the session at the end. *)
Definition echo_run (payload : string) : State :=
  let st := state_after (subscribe "foo" on_message;;
                         publish "foo" payload None) (connected "") in
  state_after (@wait wire_table frozen_clock None 1)
    (broker_delivers (broker_echo "foo" 1 payload) st).

(** The registry invariant: every registered id is below the counter. *)
Definition ids_below_next (st : State) : Prop :=
  ∀ k, is_Some (_subscriptions st !! k) → k < _next_sid st.

(** What is left of it when a send fails between the insertion into the
    registry and the increment of the counter. *)
Definition ids_upto_next (st : State) : Prop :=
  ∀ k, is_Some (_subscriptions st !! k) → k ≤ _next_sid st.

(** A run of [subscribe] calls, one after the other on the same session:
    for each call, in call order, the session it left and its outcome. *)
Fixpoint subscribe_each (calls : list (string * (Message.t → PyVal)))
    (st : State) : list (State * result Subscription.t) :=
  match calls with
  | [] => []
  | (subject, callback) :: calls =>
      let r := subscribe subject callback st in
      r :: subscribe_each calls r.1
  end.

(** The ids handed out by the calls that returned. *)
Fixpoint assigned_ids (rs : list (State * result Subscription.t)) : list Z :=
  match rs with
  | [] => []
  | (_, Return s) :: rs => Subscription.sid s :: assigned_ids rs
  | _ :: rs => assigned_ids rs
  end.

(** ** Connecting *)

(** [self._options]: written once by [__init__] and only read afterwards,
    so the methods that read it take it as an argument.  The url is kept as
    the four components of [urlparse.urlsplit(url)] that [connection.py]
    reads. *)
Record Options := mkOptions {
  url_hostname : option string;
  url_port : option Z;
  url_username : option string;
  url_password : option string;
  opt_name : option string;
  opt_ssl_required : bool;
  opt_verbose : bool;
  opt_pedantic : bool
}.

(** The values that go into the dict of [_build_connect_config]. *)
Inductive json :=
| JNull
| JBool (b : bool)
| JString (s : string).

Definition json_of_option (x : option string) : json :=
  match x with Some s => JString s | None => JNull end.

(** What lies outside the session when it connects: [json.dumps] on a dict
    given as its items in insertion order, whether
    [socket.connect((host, port))] raises [socket.error], and the bytes the
    broker writes on a new connection. *)
Class Environment := {
  json_dumps : list (string * json) → string;
  connect_refused : option string → option Z → bool;
  server_bytes : string
}.

(** [socket.socket(AF_INET, SOCK_STREAM)] gives a socket that is not
    connected yet, on which a [sendall] raises; [settimeout(None)] leaves it
    blocking. *)
Definition _build_socket : M unit :=
  modify (set_socket (λ _, Some (Socket [] true))).

(** [self._socket.connect((host, port))] *)
Definition socket_connect `{!Environment} (host : option string)
    (port : option Z) : M unit := λ st,
  match _socket st with
  | None => (st, Raise AttributeError)
  | Some sk =>
      if connect_refused host port then (st, Raise socket_error)
      else (set_socket (λ _, Some (Socket (sock_sent sk) false)) st, Return tt)
  end.

Definition _connect_socket `{!Environment} (options : Options) : M unit :=
  SocketError_wrap (socket_connect (url_hostname options) (url_port options)).

(** [self._socket.makefile('rb')] *)
Definition makefile `{!Environment} : M socket_file := λ st,
  match _socket st with
  | None => (st, Raise AttributeError)
  | Some sk => (st, Return (SocketFile server_bytes (sock_down sk)))
  end.

Definition _build_file_socket `{!Environment} : M unit :=
  f ← makefile;
  modify (set_socket_file (λ _, Some f)).

Definition _build_connect_config `{!Environment} (options : Options) : string :=
  let config :=
    [("verbose", JBool (opt_verbose options));
     ("pedantic", JBool (opt_pedantic options));
     ("ssl_required", JBool (opt_ssl_required options));
     ("name", json_of_option (opt_name options))] in
  let config :=
    match url_username options with
    | Some username =>
        (config ++ [("user", JString username);
                    ("pass", json_of_option (url_password options))])%list
    | None => config
    end in
  json_dumps config.

Definition _send_connect_msg `{!CommandTable, !Environment}
    (options : Options) : M unit :=
  _send ("CONNECT " ++ _build_connect_config options);;
  _recv [INFO];;
  mret tt.

Definition connect `{!CommandTable, !Environment} (options : Options)
    : M unit :=
  _build_socket;;
  _connect_socket options;;
  _build_file_socket;;
  _send_connect_msg options.

Definition reconnect `{!CommandTable, !Environment} (options : Options)
    : M unit :=
  close;;
  connect options.

(** The options of [Connection()] with its defaults, the url being
    nats://localhost:4222. *)
Definition default_options : Options :=
  {| url_hostname := Some "localhost"; url_port := Some 4222;
     url_username := None; url_password := None;
     opt_name := None; opt_ssl_required := false;
     opt_verbose := false; opt_pedantic := false |}.

(** A broker that accepts the connection and greets with an [INFO] line,
    one that refuses it, and a stand-in for [json.dumps] that only names
    the keys. *)
Definition dumps_keys (config : list (string * json)) : string :=
  "{" ++ foldr (λ kv acc, kv.1 ++ ";" ++ acc) "}" config.

Definition greeting_broker : Environment :=
  {| json_dumps := dumps_keys;
     connect_refused := λ _ _, false;
     server_bytes := "INFO {}" ++ CRLF ++ "PING" ++ CRLF |}.

Definition refusing_broker : Environment :=
  {| json_dumps := dumps_keys;
     connect_refused := λ _ _, true;
     server_bytes := "" |}.

(** Whether every byte of [s] is a decimal digit. *)
Fixpoint digits_only (s : string) : bool :=
  match s with
  | "" => true
  | String c s' => bool_decide (is_Some (Ascii.is_nat c)) && digits_only s'
  end.

(** A callback that asks [wait] to stop. *)
Definition on_message_stop (msg : Message.t) : PyVal := PyBool false.

(** A callback that returns the number 0, which is false as a truth value
    but is not the object [False]. *)
Definition on_message_zero (msg : Message.t) : PyVal := PyInt 0.

(** A broker that accepts the connection but writes a [PING] first. *)
Definition pinging_broker : Environment :=
  {| json_dumps := dumps_keys;
     connect_refused := λ _ _, false;
     server_bytes := "PING" ++ CRLF |}.

(** Whether no byte of [s] is white space. *)
Fixpoint no_space (s : string) : bool :=
  match s with
  | "" => true
  | String c s' => negb (Ascii.is_space c) && no_space s'
  end.

(** * Properties *)

(** ** Stepping through the transport *)

Section Transport.
Context (st : State).

Lemma sendall_up sk data :
  _socket st = Some sk → sock_down sk = false →
  sendall data st
  = (set_socket (λ _, Some (Socket (sock_sent sk ++ [data])%list false)) st,
     Return tt).
Proof. intros Hs Hd. unfold sendall. by rewrite Hs, Hd. Qed.

Lemma _send_up sk command :
  _socket st = Some sk → sock_down sk = false →
  _send command st
  = (set_socket
       (λ _, Some (Socket (sock_sent sk ++ [(command ++ CRLF)%string])%list false)) st,
     Return tt).
Proof.
  intros Hs Hd. unfold _send, SocketError_wrap.
  by rewrite (sendall_up sk).
Qed.

Lemma readline_up f :
  _socket_file st = Some f → file_down f = false →
  SocketError_wrap readline st
  = (set_socket_file
       (λ _, Some (SocketFile (readline_of (file_pending f)).2 false)) st,
     Return (readline_of (file_pending f)).1).
Proof.
  intros Hf Hd. unfold SocketError_wrap, readline. rewrite Hf, Hd.
  by destruct (readline_of (file_pending f)).
Qed.

(** A send never touches anything but the socket. *)
Lemma _send_frame command :
  let st' := (_send command st).1 in
  _socket_file st' = _socket_file st
  ∧ _subscriptions st' = _subscriptions st
  ∧ _next_sid st' = _next_sid st
  ∧ ticks st' = ticks st
  ∧ delivered st' = delivered st.
Proof.
  unfold _send, SocketError_wrap, sendall.
  destruct (_socket st) as [sk|]; [destruct (sock_down sk)|]; done.
Qed.

End Transport.

(** ** close *)

(** C8: [close()] returns [None] and changes nothing: whatever socket and
    file object the session holds, it still holds them afterwards, as open
    as they were.  Calling it again is therefore harmless, but the
    transport is never released. *)
Theorem close_leaves_transport_open (st : State) :
  close st = (st, Return tt)
  ∧ _socket (state_after close st) = _socket st
  ∧ _socket_file (state_after close st) = _socket_file st
  ∧ state_after close (state_after close st) = state_after close st.
Proof. done. Qed.

(** A frame can still be written after [close()] on a connected session. *)
Example publish_after_close :
  sent (state_after (close;; publish "foo" "hi" None) (connected ""))
  = ["PUB foo 2" ++ CRLF; "hi" ++ CRLF].
Proof. reflexivity. Qed.

(** ** publish *)

Lemma set_socket_twice f g st :
  set_socket f (set_socket g st) = set_socket (f ∘ g) st.
Proof. done. Qed.

(** C7: on a session whose socket accepts data, [publish] performs exactly
    two sends and then returns: the line [PUB <subject> <size>], or
    [PUB <subject> <reply> <size>] when a reply subject is given, where the
    size is the length of the payload in decimal, and then the payload
    itself; each is followed by CRLF.  Nothing is read back: the bytes
    waiting on the stream are left where they are. *)
Theorem publish_sends_header_then_payload st sk subject msg reply :
  _socket st = Some sk → sock_down sk = false →
  let header :=
    match reply with
    | None => "PUB " ++ subject ++ " " ++ pretty (String.length msg)
    | Some reply =>
        "PUB " ++ subject ++ " " ++ reply ++ " " ++ pretty (String.length msg)
    end in
  publish subject msg reply st
  = (set_socket
       (λ _, Some (Socket (sock_sent sk
                           ++ [(header ++ CRLF)%string; (msg ++ CRLF)%string])%list
                          false)) st,
     Return tt)
  ∧ _socket_file (state_after (publish subject msg reply) st) = _socket_file st.
Proof.
  intros Hs Hd header.
  assert (publish subject msg reply st
          = (set_socket
               (λ _, Some (Socket (sock_sent sk
                  ++ [(header ++ CRLF)%string; (msg ++ CRLF)%string])%list
                  false)) st, Return tt)) as Heq.
  { unfold publish. fold header. unfold mbind, M_bind, bind.
    rewrite (_send_up st sk header Hs Hd).
    erewrite (_send_up (set_socket _ st) _ msg); [|reflexivity..].
    rewrite set_socket_twice. cbn [sock_sent]. by rewrite <- app_assoc. }
  split; [done|]. unfold state_after. by rewrite Heq.
Qed.

Lemma publish_sends_header_then_payload_witness :
  publish "foo" "hi" (Some "inbox") (connected "PING")
  = (set_socket
       (λ _, Some (Socket ["PUB foo inbox 2" ++ CRLF; "hi" ++ CRLF] false))
       (connected "PING"),
     Return tt)
  ∧ _socket_file
      (state_after (publish "foo" "hi" (Some "inbox")) (connected "PING"))
    = Some (SocketFile "PING" false).
Proof.
  exact (publish_sends_header_then_payload (connected "PING") (Socket [] false)
           "foo" "hi" (Some "inbox") eq_refl eq_refl).
Defined.

(** ** unsubscribe *)

(** C10: on a session whose socket accepts data, [unsubscribe] first sends
    the frame [UNSUB <sid>] and only then pops the registry.  Exactly that
    one frame is sent for every subscription argument; when its id is not
    registered the call then raises, and the frame stays sent. *)
Theorem unsubscribe_sends_before_pop st sk subscription :
  _socket st = Some sk → sock_down sk = false →
  let sid := Subscription.sid subscription in
  let frame := "UNSUB " ++ pretty sid ++ CRLF in
  sent (state_after (unsubscribe subscription) st)
  = (sock_sent sk ++ [frame])%list
  ∧ (_subscriptions st !! sid = None →
     unsubscribe subscription st
     = (set_socket (λ _, Some (Socket (sock_sent sk ++ [frame])%list false)) st,
        Raise (KeyError (pretty sid)))).
Proof.
  intros Hs Hd sid frame.
  unfold state_after, unsubscribe, mbind, M_bind, bind.
  rewrite (_send_up st sk _ Hs Hd). fold sid frame.
  unfold subscriptions_pop. cbn [_subscriptions set_socket].
  destruct (_subscriptions st !! sid) as [s|]; split; done.
Qed.

Lemma unsubscribe_sends_before_pop_witness :
  let s := Subscription.Subscription 7 "foo" "" on_message in
  sent (state_after (unsubscribe s) (connected "")) = ["UNSUB 7" ++ CRLF]
  ∧ (_subscriptions (connected "") !! 7 = None →
     unsubscribe s (connected "")
     = (set_socket (λ _, Some (Socket ["UNSUB 7" ++ CRLF] false)) (connected ""),
        Raise (KeyError "7"))).
Proof.
  exact (unsubscribe_sends_before_pop (connected "") (Socket [] false)
           (Subscription.Subscription 7 "foo" "" on_message) eq_refl eq_refl).
Defined.

(** C3, as the code has it: for every subscription whose id is not in the
    registry, [unsubscribe] raises and leaves the registry as it was.  The
    exception is the [KeyError] of the dict's [pop] for that id whenever the
    [UNSUB] frame could be sent; no [NotSubscribed] exists. *)
Theorem unsubscribe_unknown_id_raises st subscription :
  let sid := Subscription.sid subscription in
  _subscriptions st !! sid = None →
  (∃ e, outcome (unsubscribe subscription) st = Raise e)
  ∧ _subscriptions (state_after (unsubscribe subscription) st)
    = _subscriptions st
  ∧ (∀ sk, _socket st = Some sk → sock_down sk = false →
     outcome (unsubscribe subscription) st = Raise (KeyError (pretty sid))).
Proof.
  intros sid Hnone.
  unfold outcome, state_after, unsubscribe, mbind, M_bind, bind.
  pose proof (_send_frame st ("UNSUB " ++ pretty sid)) as (_ & Hreg & _).
  fold sid. destruct (_send ("UNSUB " ++ pretty sid) st) as [st' r] eqn:Hsend.
  cbn [fst] in Hreg.
  assert (subscriptions_pop sid st'
          = (st', Raise (KeyError (pretty sid)))) as Hpop.
  { unfold subscriptions_pop. by rewrite Hreg, Hnone. }
  split; [|split].
  - destruct r as [[]|e|]; [rewrite Hpop|..]; eauto.
    exfalso. revert Hsend. unfold _send, SocketError_wrap, sendall.
    destruct (_socket st) as [sk|]; [destruct (sock_down sk)|]; done.
  - destruct r as [[]|e|]; [rewrite Hpop|..]; done.
  - intros sk Hs Hd. rewrite (_send_up st sk _ Hs Hd) in Hsend.
    injection Hsend as <- <-. by rewrite Hpop.
Qed.

Lemma unsubscribe_unknown_id_raises_witness :
  let s := Subscription.Subscription 7 "foo" "" on_message in
  (∃ e, outcome (unsubscribe s) (connected "") = Raise e)
  ∧ _subscriptions (state_after (unsubscribe s) (connected "")) = ∅
  ∧ (∀ sk, _socket (connected "") = Some sk → sock_down sk = false →
     outcome (unsubscribe s) (connected "") = Raise (KeyError "7")).
Proof.
  exact (unsubscribe_unknown_id_raises (connected "")
           (Subscription.Subscription 7 "foo" "" on_message) eq_refl).
Defined.

(** C3 as stated fails: on a connected session with an empty registry,
    [unsubscribe] of id 7 does not raise anything called [NotSubscribed];
    what it raises is [KeyError]. *)
Lemma unsubscribe_unknown_id_is_KeyError :
  let s := Subscription.Subscription 7 "foo" "" on_message in
  _subscriptions (connected "") !! 7 = None
  ∧ outcome (unsubscribe s) (connected "") = Raise (KeyError "7")
  ∧ ¬ ∃ e, outcome (unsubscribe s) (connected "") = Raise e
           ∧ exn_name e = "NotSubscribed".
Proof.
  split; [done|]. split; [done|].
  intros (e & He & Hname). vm_compute in He. injection He as <-.
  discriminate Hname.
Qed.

(** ** subscribe *)

Lemma ids_below_upto st : ids_below_next st → ids_upto_next st.
Proof. intros H k Hk. specialize (H k Hk). lia. Qed.

(** One call.  When it returns, the id it handed out is the old counter, the
    counter has moved past it, and every registered id is below the counter
    again.  When the send fails the counter stays, and the entry that was
    already inserted sits exactly at the counter. *)
Lemma subscribe_step subject callback st :
  ids_upto_next st →
  match subscribe subject callback st with
  | (st', Return s) =>
      Subscription.sid s = _next_sid st
      ∧ _next_sid st' = _next_sid st + 1
      ∧ _subscriptions st' !! Subscription.sid s = Some s
      ∧ ids_below_next st'
  | (st', Raise _) => _next_sid st' = _next_sid st ∧ ids_upto_next st'
  | (_, Diverged) => False
  end.
Proof.
  intros Hinv.
  assert (∀ k s, is_Some (<[_next_sid st:=s]> (_subscriptions st) !! k) →
                 k ≤ _next_sid st) as Hins.
  { intros k s. rewrite lookup_insert. case_decide; [lia|]. apply Hinv. }
  unfold subscribe, mbind, M_bind, bind, gets, modify, _send,
    SocketError_wrap, sendall. cbn.
  destruct (_socket st) as [sk|]; [destruct (sock_down sk)|]; cbn.
  - split; [done|]. intros k. apply Hins.
  - repeat split; [by rewrite lookup_insert_eq|].
    intros k Hk. cbn in *. apply Hins in Hk. lia.
  - split; [done|]. intros k. apply Hins.
Qed.

Lemma subscribe_returns subject callback st sk :
  _socket st = Some sk → sock_down sk = false →
  ∃ st' s sk', subscribe subject callback st = (st', Return s)
               ∧ _socket st' = Some sk' ∧ sock_down sk' = false.
Proof.
  intros Hs Hd.
  unfold subscribe, mbind, M_bind, bind, gets, modify, _send,
    SocketError_wrap, sendall. cbn. rewrite Hs, Hd. cbn.
  eexists _, _, _. split; [reflexivity|]. by cbn.
Qed.

Lemma subscribe_each_ids calls : ∀ st,
  ids_upto_next st →
  StronglySorted Z.lt (assigned_ids (subscribe_each calls st))
  ∧ Forall (λ k, _next_sid st ≤ k) (assigned_ids (subscribe_each calls st))
  ∧ Forall (λ r, ∀ s, r.2 = Return s →
              ids_below_next r.1
              ∧ _subscriptions r.1 !! Subscription.sid s = Some s)
      (subscribe_each calls st).
Proof.
  induction calls as [|[subject callback] calls IH]; intros st Hinv; cbn.
  { repeat constructor. }
  pose proof (subscribe_step subject callback st Hinv) as Hstep.
  destruct (subscribe subject callback st) as [st' [s|e|]]; [| |done]; cbn.
  - destruct Hstep as (Hsid & Hnext & Hreg & Hbelow).
    destruct (IH st' (ids_below_upto _ Hbelow)) as (Hsorted & Hge & Hall).
    split; [|split].
    + constructor; [done|]. eapply Forall_impl; [exact Hge|].
      intros k Hk. cbn in Hk. lia.
    + constructor; [lia|]. eapply Forall_impl; [exact Hge|].
      intros k Hk. cbn in Hk. lia.
    + constructor; [|done]. intros s' [= <-]. done.
  - destruct Hstep as (Hnext & Hupto).
    destruct (IH st' Hupto) as (Hsorted & Hge & Hall).
    split; [done|]. split.
    + eapply Forall_impl; [exact Hge|]. intros k Hk. cbn in Hk. lia.
    + constructor; [|done]. intros s' [=].
Qed.

Lemma subscribe_each_returns calls : ∀ st sk,
  _socket st = Some sk → sock_down sk = false →
  Forall (λ r, ∃ s, r.2 = Return s) (subscribe_each calls st).
Proof.
  induction calls as [|[subject callback] calls IH]; intros st sk Hs Hd; cbn.
  { constructor. }
  destruct (subscribe_returns subject callback st sk Hs Hd)
    as (st' & s & sk' & -> & Hs' & Hd').
  constructor; [by eexists|]. by eapply IH.
Qed.

(** As long as every send succeeds the ids behave: take a session on which
    every registered id is below the counter, as on a new one, and any run
    of [subscribe] calls on it.  The ids handed out by the calls are
    strictly increasing in call order; after each call that returns, the
    subscription it returned is registered under its id and the counter is
    strictly greater than every registered id; and on a session whose
    socket accepts data every call of the run returns.  A call whose send
    raises is another matter, taken up after the examples below. *)
Theorem subscribe_ids_strictly_increasing calls st :
  ids_below_next st →
  StronglySorted Z.lt (assigned_ids (subscribe_each calls st))
  ∧ NoDup (assigned_ids (subscribe_each calls st))
  ∧ Forall (λ r, ∀ s, r.2 = Return s →
              ids_below_next r.1
              ∧ _subscriptions r.1 !! Subscription.sid s = Some s)
      (subscribe_each calls st)
  ∧ (∀ sk, _socket st = Some sk → sock_down sk = false →
     Forall (λ r, ∃ s, r.2 = Return s) (subscribe_each calls st)).
Proof.
  intros Hinv.
  destruct (subscribe_each_ids calls st (ids_below_upto _ Hinv))
    as (Hsorted & _ & Hall).
  split; [done|]. split; [|split; [done|]].
  - clear -Hsorted.
    induction Hsorted as [|k ks _ IH Hlt]; constructor; [|done].
    intros Hin. rewrite Forall_forall in Hlt. specialize (Hlt k Hin). lia.
  - intros sk. apply subscribe_each_returns.
Qed.

Lemma subscribe_ids_strictly_increasing_witness :
  let calls := [("foo", on_message); ("bar", on_message)] in
  ids_below_next (connected "")
  ∧ StronglySorted Z.lt (assigned_ids (subscribe_each calls (connected "")))
  ∧ NoDup (assigned_ids (subscribe_each calls (connected "")))
  ∧ Forall (λ r, ∀ s, r.2 = Return s →
              ids_below_next r.1
              ∧ _subscriptions r.1 !! Subscription.sid s = Some s)
      (subscribe_each calls (connected ""))
  ∧ (∀ sk, _socket (connected "") = Some sk → sock_down sk = false →
     Forall (λ r, ∃ s, r.2 = Return s) (subscribe_each calls (connected ""))).
Proof.
  assert (ids_below_next (connected "")) as Hinv.
  { intros k [s Hs]. discriminate Hs. }
  split; [exact Hinv|].
  exact (subscribe_ids_strictly_increasing
           [("foo", on_message); ("bar", on_message)] (connected "") Hinv).
Defined.

(** Two calls on a new connected session hand out 1 and then 2. *)
Example subscribe_twice :
  assigned_ids
    (subscribe_each [("foo", on_message); ("bar", on_message)] (connected ""))
  = [1; 2].
Proof. reflexivity. Qed.

(** Before [connect] the send fails after the entry was inserted: id 1 is
    registered and the counter is still 1. *)
Example subscribe_before_connect :
  outcome (subscribe "foo" on_message) Connection = Raise AttributeError
  ∧ _next_sid (state_after (subscribe "foo" on_message) Connection) = 1
  ∧ is_Some (_subscriptions (state_after (subscribe "foo" on_message) Connection)
             !! 1).
Proof. repeat split. by eexists. Qed.

(** C5: a [subscribe] before [connect], then [connect], then a second
    [subscribe], all on one new session.  The first call raises on its
    send, after it has put its entry into the registry and before it has
    moved the counter: id 1 is registered while the counter is 1, not above
    it.  The second call returns id 1 again and puts its subscription in
    the place of the first one, which was still registered.  [unsubscribe]
    sends before it touches the registry; [subscribe] does not. *)
Theorem failed_subscribe_id_is_handed_out_again :
  let handshake := @connect wire_table greeting_broker default_options in
  let foo := Subscription.Subscription 1 "foo" "" on_message in
  let bar := Subscription.Subscription 1 "bar" "" on_message_stop in
  let st1 := state_after (subscribe "foo" on_message) Connection in
  let st2 := state_after handshake st1 in
  let st3 := state_after (subscribe "bar" on_message_stop) st2 in
  outcome (subscribe "foo" on_message) Connection = Raise AttributeError
  ∧ _subscriptions st1 !! 1 = Some foo
  ∧ _next_sid st1 = 1
  ∧ ¬ ids_below_next st1
  ∧ outcome handshake st1 = Return tt
  ∧ outcome (subscribe "bar" on_message_stop) st2 = Return bar
  ∧ _subscriptions st3 !! 1 = Some bar
  ∧ _next_sid st3 = 2.
Proof.
  repeat split.
  intros Hbelow.
  specialize (Hbelow 1 (mk_is_Some _ _ eq_refl)).
  vm_compute in Hbelow. discriminate Hbelow.
Qed.

(** The same after a send that fails on a connected session: the socket
    goes down, [subscribe] raises [SocketError], [reconnect] brings a new
    socket, and the next [subscribe] returns the id of the entry that the
    failed call had left behind. *)
Example failed_subscribe_then_reconnect :
  let down := set_socket (λ _, Some (Socket [] true)) (connected "") in
  let st1 := state_after (subscribe "foo" on_message) down in
  let st2 :=
    state_after (@reconnect wire_table greeting_broker default_options) st1 in
  outcome (subscribe "foo" on_message) down = Raise SocketError
  ∧ _subscriptions st1 !! 1
    = Some (Subscription.Subscription 1 "foo" "" on_message)
  ∧ _next_sid st1 = 1
  ∧ outcome (subscribe "bar" on_message_stop) st2
    = Return (Subscription.Subscription 1 "bar" "" on_message_stop).
Proof. repeat split. Qed.

(** ** Lines and white space *)

Lemma append_cons c s t : String c s ++ t = String c (s ++ t).
Proof. done. Qed.




(** Reading a line splits the stream, and only an empty stream gives an
    empty line. *)
Lemma readline_of_length s :
  String.length s
  = (String.length (readline_of s).1 + String.length (readline_of s).2)%nat.
Proof.
  induction s as [|c s IH]; [done|]. cbn [readline_of].
  destruct (Ascii.eqb c "010"); [done|].
  destruct (readline_of s) as [l r]. cbn in *. lia.
Qed.

Lemma readline_of_empty s : (readline_of s).1 = "" → s = "".
Proof.
  destruct s as [|c s]; [done|]. cbn [readline_of].
  destruct (Ascii.eqb c "010"); [done|]. by destruct (readline_of s).
Qed.

(** ** Receiving *)

Section Receive.
Context `{!CommandTable, !Clock}.

Lemma _recv_next st command result rest expected_commands :
  next_line st command result rest → command ∈ expected_commands →
  _recv expected_commands st
  = (set_socket_file (λ _, Some (SocketFile rest false)) st,
     Return (command, result)).
Proof.
  intros (f & line & Hf & Hd & Hline & Hcmd & Hmatch) Hin.
  unfold _recv, mbind, M_bind, bind.
  rewrite (readline_up st f Hf Hd), Hline. cbn [fst snd].
  rewrite Hcmd, bool_decide_eq_true_2 by done. by rewrite Hmatch.
Qed.

(** What [_handle_msg] does once the header groups parse: it reads one more
    line, strips it, and either calls the registered subscription or fails
    on the missing one. *)
Lemma _handle_msg_step st f result sid size reply :
  _socket_file st = Some f → file_down f = false →
  msg_fields result sid size reply →
  let line := (readline_of (file_pending f)).1 in
  let st' :=
    set_socket_file
      (λ _, Some (SocketFile (readline_of (file_pending f)).2 false)) st in
  let msg := Message.Message sid size (strip line) (strip <$> reply) in
  _handle_msg result st
  = match _subscriptions st !! sid with
    | Some s => (set_delivered (λ l, (l ++ [msg])%list) st',
                 Return (Subscription.handle_msg s msg))
    | None => (st', Raise AttributeError)
    end.
Proof.
  intros Hf Hd ((x1 & Hx1 & Hsid) & (x2 & Hx2 & Hsize) & Hreply) line st' msg.
  unfold _handle_msg, mbind, M_bind, bind, lift, getitem.
  rewrite Hx1, Hsid, Hx2, Hsize, (readline_up st f Hf Hd), Hreply.
  unfold gets, raise, call_handle_msg. cbn [_subscriptions set_socket_file].
  fold line st' msg. by destruct (_subscriptions st !! sid).
Qed.

(** A turn of the loop on a [MSG] line: the header is taken off the stream,
    [total] goes up by one, and [_handle_msg] runs on what follows. *)
Lemma wait_body_msg st result rest duration count start total :
  next_line st MSG result rest →
  wait_body duration count start total st
  = (r ← _handle_msg result;
     if is_False r then mret (true, total + 1)
     else if truthy count && (count >=? total + 1) then mret (true, total + 1)
     else stop ← duration_test duration start; mret (stop, total + 1))
      (set_socket_file (λ _, Some (SocketFile rest false)) st).
Proof.
  intros Hnext. unfold wait_body at 1. unfold mbind at 1, M_bind at 1, bind at 1.
  rewrite (_recv_next st MSG result rest) by (done || set_solver). done.
Qed.

(** C9: when the loop reads a [MSG] line whose subscription id is not in
    the registry, [_handle_msg] still reads the payload line, finds no
    subscription, and fails with [AttributeError] on the call of
    [handle_msg]; no callback runs, and the error ends [wait] instead of the
    frame being skipped. *)
Theorem msg_for_unknown_sid_raises st result rest sid size reply :
  next_line st MSG result rest →
  msg_fields result sid size reply →
  _subscriptions st !! sid = None →
  let st1 := set_socket_file (λ _, Some (SocketFile rest false)) st in
  let st2 :=
    set_socket_file (λ _, Some (SocketFile (readline_of rest).2 false)) st in
  _handle_msg result st1 = (st2, Raise AttributeError)
  ∧ delivered st2 = delivered st
  ∧ ∀ fuel duration count start total,
      wait_loop (S fuel) duration count start total st
      = (st2, Raise AttributeError).
Proof.
  intros Hnext Hfields Hnone st1 st2.
  assert (_handle_msg result st1 = (st2, Raise AttributeError)) as Hmsg.
  { rewrite (_handle_msg_step st1 (SocketFile rest false) result sid size reply)
      by done.
    cbn [_subscriptions st1 set_socket_file]. by rewrite Hnone. }
  split; [done|]. split; [done|]. intros fuel duration count start total.
  cbn [wait_loop]. unfold mbind at 1, M_bind at 1, bind at 1.
  rewrite (wait_body_msg st result rest) by done.
  unfold mbind at 1, M_bind at 1, bind at 1. fold st1. by rewrite Hmsg.
Qed.


(** *** The loop ends *)

Lemma tame_ret {A} (a : A) : tame (mret a).
Proof. by intros st. Qed.

Lemma tame_raise {A} e : tame (raise e : M A).
Proof. by intros st. Qed.

Lemma tame_gets {A} (f : State → A) : tame (gets f).
Proof. by intros st. Qed.

Lemma tame_lift {A} (r : result A) : r ≠ Diverged → tame (lift r).
Proof. by intros Hr st. Qed.

Lemma tame_bind {A B} (m : M A) (k : A → M B) :
  tame m → (∀ a, tame (k a)) → tame (m ≫= k).
Proof.
  intros Hm Hk st. unfold mbind, M_bind, bind.
  destruct (Hm st) as [Hlen Hdiv]. destruct (m st) as [st' [a|e|]]; [|done..].
  destruct (Hk a st') as [Hlen' Hdiv']. cbn in *. split; [lia|done].
Qed.

Lemma tame_readline : tame (SocketError_wrap readline).
Proof.
  intros st. unfold SocketError_wrap, readline, pending.
  destruct (_socket_file st) as [f|] eqn:Hf; cbn; rewrite ?Hf; [|done].
  destruct (file_down f); cbn; rewrite ?Hf; [done|].
  pose proof (readline_of_length (file_pending f)) as Hlen.
  destruct (readline_of (file_pending f)) as [line rest]. cbn in *.
  split; [lia|done].
Qed.

Lemma tame_send command : tame (_send command).
Proof.
  intros st. unfold _send, SocketError_wrap, sendall.
  destruct (_socket st) as [sk|]; [destruct (sock_down sk)|]; done.
Qed.

Lemma tame_time : tame time.
Proof. by intros st. Qed.

Lemma tame_int x : int x ≠ Diverged.
Proof. unfold int. by repeat case_match. Qed.

Lemma tame_getitem data key : getitem data key ≠ Diverged.
Proof. unfold getitem. by case_match. Qed.

Lemma tame_handle_msg result : tame (_handle_msg result).
Proof.
  unfold _handle_msg.
  apply tame_bind.
  { apply tame_lift. pose proof (tame_getitem result "sid").
    destruct (getitem result "sid"); [apply tame_int|done..]. }
  intros sid. apply tame_bind.
  { apply tame_lift. pose proof (tame_getitem result "size").
    destruct (getitem result "size"); [apply tame_int|done..]. }
  intros size. apply tame_bind; [apply tame_readline|intros line].
  apply tame_bind; [apply tame_lift, tame_getitem|intros r].
  apply tame_bind; [apply tame_gets|intros [s|]]; [|apply tame_raise].
  by intros st.
Qed.

Lemma tame_duration_test duration start : tame (duration_test duration start).
Proof.
  unfold duration_test. destruct (duration_set duration); [|apply tame_ret].
  repeat (apply tame_bind; [apply tame_time|intros ?]). apply tame_ret.
Qed.

(** A line that [_recv] accepts is not empty, provided the empty string is
    no verb of the table; so a [_recv] that returns has taken bytes off the
    stream. *)
Lemma _recv_consumes expected_commands st st' a :
  commands !! "" = None →
  _recv expected_commands st = (st', Return a) →
  (String.length (pending st') < String.length (pending st))%nat.
Proof.
  intros Hempty. unfold _recv, mbind, M_bind, bind, SocketError_wrap, readline.
  unfold pending at 2.
  destruct (_socket_file st) as [f|] eqn:Hf; [|done].
  destruct (file_down f); [done|].
  pose proof (readline_of_length (file_pending f)) as Hlen.
  pose proof (readline_of_empty (file_pending f)) as Hnil.
  destruct (readline_of (file_pending f)) as [line rest]. cbn in Hlen, Hnil.
  destruct line as [|c line].
  { unfold _get_command. cbn. by rewrite Hempty. }
  repeat case_match; try done. intros [= <- _]. cbn in *. lia.
Qed.

Lemma _recv_tame expected_commands : tame (_recv expected_commands).
Proof.
  unfold _recv. apply tame_bind; [apply tame_readline|intros line].
  repeat case_match; apply tame_ret || apply tame_raise.
Qed.

Lemma wait_body_tame duration count start total :
  tame (wait_body duration count start total).
Proof.
  unfold wait_body. apply tame_bind; [apply _recv_tame|intros [type result]].
  destruct type.
  - apply tame_bind; [apply tame_handle_msg|intros r].
    repeat case_match; try apply tame_ret.
    apply tame_bind; [apply tame_duration_test|intros ?; apply tame_ret].
  - apply tame_bind; [apply tame_duration_test|intros ?; apply tame_ret].
  - apply tame_bind; [apply tame_send|intros ?].
    apply tame_bind; [apply tame_duration_test|intros ?; apply tame_ret].
  - apply tame_bind; [apply tame_duration_test|intros ?; apply tame_ret].
  - apply tame_bind; [apply tame_duration_test|intros ?; apply tame_ret].
Qed.

Lemma wait_body_consumes duration count start total st st' a :
  commands !! "" = None →
  wait_body duration count start total st = (st', Return a) →
  (String.length (pending st') < String.length (pending st))%nat.
Proof.
  intros Hempty. unfold wait_body. unfold mbind at 1, M_bind at 1, bind at 1.
  destruct (_recv [MSG; PING; OK] st) as [st1 [[type result]|e|]] eqn:Hrecv;
    [|done..].
  apply (_recv_consumes _ _ _ _ Hempty) in Hrecv.
  set (k := match type with MSG => _ | _ => _ end).
  assert (tame k) as Hk.
  { unfold k. destruct type.
    - apply tame_bind; [apply tame_handle_msg|intros r].
      repeat case_match; try apply tame_ret.
      apply tame_bind; [apply tame_duration_test|intros ?; apply tame_ret].
    - apply tame_bind; [apply tame_duration_test|intros ?; apply tame_ret].
    - apply tame_bind; [apply tame_send|intros ?].
      apply tame_bind; [apply tame_duration_test|intros ?; apply tame_ret].
    - apply tame_bind; [apply tame_duration_test|intros ?; apply tame_ret].
    - apply tame_bind; [apply tame_duration_test|intros ?; apply tame_ret]. }
  intros Hk'. destruct (Hk st1) as [Hlen _]. rewrite Hk' in Hlen. cbn in Hlen.
  lia.
Qed.

(** With more fuel than there are bytes on the stream the loop does not run
    out of it: it returns or raises. *)
Lemma wait_loop_total duration count start : ∀ fuel total st,
  commands !! "" = None →
  (String.length (pending st) < fuel)%nat →
  (wait_loop fuel duration count start total st).2 ≠ Diverged.
Proof.
  induction fuel as [|fuel IH]; intros total st Hempty Hfuel; [lia|].
  cbn [wait_loop]. unfold mbind, M_bind, bind.
  destruct (wait_body_tame duration count start total st) as [_ Hdiv].
  destruct (wait_body duration count start total st)
    as [st' [[stop total']|e|]] eqn:Hbody; [|done..].
  apply (wait_body_consumes _ _ _ _ _ _ _ Hempty) in Hbody.
  destruct stop; [done|]. apply IH; [done|lia].
Qed.

Lemma wait_total duration count st :
  commands !! "" = None →
  outcome (wait duration count) st ≠ Diverged.
Proof.
  intros Hempty. unfold outcome, wait, mbind, M_bind, bind, time, gets.
  apply wait_loop_total; [done|]. unfold wait_fuel, pending. cbn. lia.
Qed.

(** *** The duration test *)

(** Once [duration] is set and not zero its value is never looked at: the
    test reads the clock twice and asks whether the first reading minus the
    second minus [start] is non-zero. *)
Lemma duration_test_set duration start st :
  duration_set duration = true →
  duration_test duration start st
  = (set_ticks (λ n, S (S n)) st,
     Return (truthyQ (time_time (ticks st) - time_time (S (ticks st))
                      - start)%Q)).
Proof. intros Hset. unfold duration_test. by rewrite Hset. Qed.

Lemma duration_test_unset duration start st :
  duration_set duration = false →
  duration_test duration start st = (st, Return false).
Proof. intros Hset. unfold duration_test. by rewrite Hset. Qed.

(** With a clock that does not run backwards and a positive [start], as
    seconds since 1970 are, that difference is negative, so the test
    succeeds however little time has passed. *)
Lemma duration_test_succeeds duration start st :
  duration_set duration = true →
  (time_time (ticks st) <= time_time (S (ticks st)))%Q → (0 < start)%Q →
  (duration_test duration start st).2 = Return true.
Proof.
  intros Hset Hmono Hstart. rewrite duration_test_set by done. cbn [snd].
  f_equal. unfold truthyQ.
  destruct (Qeq_bool _ 0) eqn:Heq; [|done].
  apply Qeq_bool_iff in Heq. lra.
Qed.

(** *** PING *)

(** C6, as the code has it: when the loop reads a [PING] line on a session
    whose socket accepts data, exactly one frame, [PONG], is sent, for all
    values of [duration] and [count]; and when [duration] is [None] or zero
    no [break] is taken, [total] is unchanged, and the loop goes on to its
    next read. *)
Theorem ping_is_answered_with_one_pong st sk result rest duration count start
    total :
  _socket st = Some sk → sock_down sk = false →
  next_line st PING result rest →
  let st' :=
    set_socket
      (λ _, Some (Socket (sock_sent sk ++ [("PONG" ++ CRLF)%string])%list
                         false))
      (set_socket_file (λ _, Some (SocketFile rest false)) st) in
  sent (wait_body duration count start total st).1
  = (sock_sent sk ++ [("PONG" ++ CRLF)%string])%list
  ∧ (duration_set duration = false →
     wait_body duration count start total st = (st', Return (false, total))
     ∧ ∀ fuel,
         wait_loop (S fuel) duration count start total st
         = wait_loop fuel duration count start total st').
Proof.
  intros Hs Hd Hnext st'.
  assert (wait_body duration count start total st
          = (stop ← duration_test duration start; mret (stop, total)) st')
    as Hbody.
  { unfold wait_body. unfold mbind at 1, M_bind at 1, bind at 1.
    rewrite (_recv_next st PING result rest) by (done || set_solver).
    unfold mbind at 1, M_bind at 1, bind at 1. unfold _handle_ping.
    by erewrite (_send_up (set_socket_file _ st) sk "PONG"). }
  split.
  - rewrite Hbody. unfold mbind, M_bind, bind.
    destruct (duration_set duration) eqn:Hset.
    + by rewrite duration_test_set.
    + by rewrite duration_test_unset.
  - intros Hset.
    assert (wait_body duration count start total st
            = (st', Return (false, total))) as Hbody'.
    { rewrite Hbody. unfold mbind, M_bind, bind.
      by rewrite duration_test_unset. }
    split; [done|]. intros fuel. cbn [wait_loop].
    unfold mbind at 1, M_bind at 1, bind at 1. by rewrite Hbody'.
Qed.

End Receive.

(** ** The loop on the wire command table *)

Lemma wire_commands_no_empty_verb : @commands wire_table !! "" = None.
Proof. reflexivity. Qed.

Lemma ping_is_answered_with_one_pong_witness :
  let st := connected ("PING" ++ CRLF ++ two_frames) in
  let st' :=
    set_socket (λ _, Some (Socket ["PONG" ++ CRLF] false))
      (set_socket_file (λ _, Some (SocketFile two_frames false)) st) in
  sent (@wait_body wire_table frozen_clock None 2 1000%Q 0 st).1
  = ["PONG" ++ CRLF]
  ∧ (duration_set None = false →
     @wait_body wire_table frozen_clock None 2 1000%Q 0 st
     = (st', Return (false, 0))
     ∧ ∀ fuel,
         @wait_loop wire_table frozen_clock (S fuel) None 2 1000%Q 0 st
         = @wait_loop wire_table frozen_clock fuel None 2 1000%Q 0 st').
Proof.
  apply (@ping_is_answered_with_one_pong wire_table frozen_clock
           (connected ("PING" ++ CRLF ++ two_frames)) (Socket [] false)
           ∅ two_frames None 2 1000%Q 0); [reflexivity..|].
  exists (SocketFile ("PING" ++ CRLF ++ two_frames) false), ("PING" ++ CRLF).
  repeat split; reflexivity.
Defined.

(** C6 as stated fails: with [duration=1] and a clock that has moved on by
    a second at every reading, the turn that answers the [PING] takes the
    [break], and [wait] returns with both message frames still unread. *)
Lemma ping_with_duration_ends_loop :
  let st := connected ("PING" ++ CRLF ++ two_frames) in
  (@wait_body wire_table ticking_clock (Some 1%Q) 0 1000%Q 0
     (set_ticks S st)).2 = Return (true, 0)
  ∧ outcome (@wait wire_table ticking_clock (Some 1%Q) 0) st = Return tt
  ∧ sent (state_after (@wait wire_table ticking_clock (Some 1%Q) 0) st)
    = ["PONG" ++ CRLF]
  ∧ pending (state_after (@wait wire_table ticking_clock (Some 1%Q) 0) st)
    = two_frames.
Proof. vm_compute. done. Qed.

(** C4: [wait(duration=10)] on a connected session with a [PING] and two
    message frames on the stream, under a clock that stands still.  The
    call returns after the [PING]: three readings of the clock, all of them
    1000, so no time at all has passed, and both message frames are still
    unread. *)
Theorem wait_duration_returns_after_first_frame :
  let st := connected ("PING" ++ CRLF ++ two_frames) in
  let st' := state_after (@wait wire_table frozen_clock (Some 10%Q) 0) st in
  outcome (@wait wire_table frozen_clock (Some 10%Q) 0) st = Return tt
  ∧ ticks st' = 3%nat
  ∧ (∀ n, @time_time frozen_clock n = 1000%Q)
  ∧ sent st' = ["PONG" ++ CRLF]
  ∧ pending st' = two_frames.
Proof. vm_compute. done. Qed.

(** C1: [wait(count=2)] on a session subscribed to foo with two message
    frames on the stream.  The call returns after the first frame: one
    message was handed to the callback and the second frame is still
    unread. *)
Theorem wait_count_two_returns_after_one_message :
  let st := state_after (subscribe "foo" on_message) (connected two_frames) in
  let st' := state_after (@wait wire_table frozen_clock None 2) st in
  outcome (@wait wire_table frozen_clock None 2) st = Return tt
  ∧ delivered st' = [Message.Message 1 2 "hi" None]
  ∧ pending st' = "MSG foo 1 2" ++ CRLF ++ "yo" ++ CRLF.
Proof. vm_compute. done. Qed.

(** ** Messages on the wire command table *)

Section FirstMessage.
Context `{!CommandTable, !Clock}.

(** Whenever [count] is set and at least [total + 1], the turn that handles
    a message for a registered subscription takes a [break], whatever the
    callback returns: [count >= total] holds from the first message on. *)
Lemma wait_body_count_break st result rest sid size reply s duration count
    start total :
  next_line st MSG result rest →
  msg_fields result sid size reply →
  _subscriptions st !! sid = Some s →
  truthy count = true → total + 1 ≤ count →
  (wait_body duration count start total st).2 = Return (true, total + 1).
Proof.
  intros Hnext Hfields Hreg Hcount Hle.
  rewrite (wait_body_msg st result rest) by done.
  unfold mbind at 1, M_bind at 1, bind at 1.
  rewrite (_handle_msg_step _ (SocketFile rest false) result sid size reply)
    by done.
  cbn [_subscriptions set_socket_file]. rewrite Hreg.
  destruct (is_False _); [done|].
  rewrite Hcount. by rewrite (proj2 (Z.geb_le _ _) Hle).
Qed.

End FirstMessage.

Lemma msg_for_unknown_sid_raises_witness :
  let st := connected two_frames in
  let rest := "hi" ++ CRLF ++ "MSG foo 1 2" ++ CRLF ++ "yo" ++ CRLF in
  let st1 := set_socket_file (λ _, Some (SocketFile rest false)) st in
  let st2 :=
    set_socket_file
      (λ _, Some (SocketFile ("MSG foo 1 2" ++ CRLF ++ "yo" ++ CRLF) false))
      st in
  _handle_msg (msg_groups "foo" "1" None "2") st1 = (st2, Raise AttributeError)
  ∧ delivered st2 = []
  ∧ ∀ fuel duration count start total,
      @wait_loop wire_table frozen_clock (S fuel) duration count start total st
      = (st2, Raise AttributeError).
Proof.
  apply (@msg_for_unknown_sid_raises wire_table frozen_clock
           (connected two_frames) (msg_groups "foo" "1" None "2")
           ("hi" ++ CRLF ++ "MSG foo 1 2" ++ CRLF ++ "yo" ++ CRLF) 1 2 None).
  - exists (SocketFile two_frames false), ("MSG foo 1 2" ++ CRLF).
    repeat split; reflexivity.
  - repeat split; try (eexists; split; reflexivity); reflexivity.
  - reflexivity.
Defined.



(** A payload with a line feed in it is cut at the line feed. *)
Example echoed_payload_cut_at_LF :
  delivered (echo_run ("a" ++ String LF "b")) = [Message.Message 1 3 "a" None].
Proof. vm_compute. done. Qed.

(** A payload without line feeds or surrounding white space comes back
    whole. *)
Example echoed_payload_hello :
  delivered (echo_run "hello") = [Message.Message 1 5 "hello" None].
Proof. vm_compute. done. Qed.

(** * Further properties of the session *)

(** ** Lines that [_recv] rejects *)

Section Rejected.
Context `{!CommandTable, !Clock}.

(** X1: when the verb of the next line is not in the command table, or
    names a command that is not among the expected ones, [_recv] raises
    [UnexpectedResponse] with that line; the line is off the stream all the
    same. *)
Theorem recv_raises_unexpected_response st f expected_commands :
  _socket_file st = Some f → file_down f = false →
  let line := (readline_of (file_pending f)).1 in
  (∀ c, _get_command line = Some c → c ∉ expected_commands) →
  _recv expected_commands st
  = (set_socket_file
       (λ _, Some (SocketFile (readline_of (file_pending f)).2 false)) st,
     Raise (UnexpectedResponse line)).
Proof.
  intros Hf Hd line Hverb. unfold _recv, mbind, M_bind, bind.
  rewrite (readline_up st f Hf Hd). fold line.
  destruct (_get_command line) as [c|] eqn:Hc; [|done].
  by rewrite bool_decide_eq_false_2 by by apply Hverb.
Qed.

(** X2: when the verb of the next line names an expected command but the
    line does not match the pattern of that command, [_recv] raises
    [UnknownResponse] with the command and the line. *)
Theorem recv_raises_unknown_response st f c expected_commands :
  _socket_file st = Some f → file_down f = false →
  let line := (readline_of (file_pending f)).1 in
  _get_command line = Some c → c ∈ expected_commands →
  command_match c line = None →
  _recv expected_commands st
  = (set_socket_file
       (λ _, Some (SocketFile (readline_of (file_pending f)).2 false)) st,
     Raise (UnknownResponse c line)).
Proof.
  intros Hf Hd line Hc Hin Hmatch. unfold _recv, mbind, M_bind, bind.
  rewrite (readline_up st f Hf Hd). fold line.
  by rewrite Hc, bool_decide_eq_true_2, Hmatch by done.
Qed.

(** X3: at the end of the stream [readline] gives the empty string, which
    is no command: provided the empty string is no verb of the table,
    [wait] reads the clock once and raises [UnexpectedResponse] with the
    empty line, whatever its arguments. *)
Theorem wait_at_end_of_stream_raises st duration count :
  commands !! "" = None →
  _socket_file st = Some (SocketFile "" false) →
  wait duration count st
  = (set_socket_file (λ _, Some (SocketFile "" false)) (set_ticks S st),
     Raise (UnexpectedResponse "")).
Proof.
  intros Hempty Hf. unfold wait, mbind, M_bind, bind, time, gets.
  unfold wait_fuel, pending. cbn [_socket_file set_ticks]. rewrite Hf.
  cbn [wait_loop String.length file_pending].
  unfold mbind, M_bind, bind, wait_body. unfold mbind, M_bind, bind, _recv.
  unfold mbind, M_bind, bind.
  erewrite (readline_up (set_ticks S st) (SocketFile "" false)) by done.
  cbn [readline_of fst snd file_pending]. unfold _get_command. cbn.
  by rewrite Hempty.
Qed.

(** X4: on a session whose socket accepts data and whose next line is a
    matching [PONG], [ping] sends the one frame [PING], takes that line off
    the stream and returns. *)
Theorem ping_returns_on_pong st sk result rest :
  _socket st = Some sk → sock_down sk = false →
  next_line st PONG result rest →
  ping st
  = (set_socket_file (λ _, Some (SocketFile rest false))
       (set_socket
          (λ _, Some (Socket (sock_sent sk ++ [("PING" ++ CRLF)%string])%list
                             false)) st),
     Return tt).
Proof.
  intros Hs Hd Hnext. unfold ping. unfold mbind at 1, M_bind at 1, bind at 1.
  rewrite (_send_up st sk "PING" Hs Hd).
  unfold mbind at 1, M_bind at 1, bind at 1.
  by rewrite (_recv_next _ PONG result rest) by (done || set_solver).
Qed.

(** X5: when the line that follows is anything but a [PONG] line, a message
    header for one, [ping] raises [UnexpectedResponse] with it: the [PING]
    has been sent and the line is gone from the stream. *)
Theorem ping_raises_on_other_line st sk f :
  _socket st = Some sk → sock_down sk = false →
  _socket_file st = Some f → file_down f = false →
  let line := (readline_of (file_pending f)).1 in
  _get_command line ≠ Some PONG →
  ping st
  = (set_socket_file
       (λ _, Some (SocketFile (readline_of (file_pending f)).2 false))
       (set_socket
          (λ _, Some (Socket (sock_sent sk ++ [("PING" ++ CRLF)%string])%list
                             false)) st),
     Raise (UnexpectedResponse line)).
Proof.
  intros Hs Hd Hf Hfd line Hverb. unfold ping.
  unfold mbind at 1, M_bind at 1, bind at 1.
  rewrite (_send_up st sk "PING" Hs Hd).
  unfold mbind at 1, M_bind at 1, bind at 1.
  unfold _recv, mbind, M_bind, bind.
  erewrite (readline_up (set_socket _ st) f) by done. fold line.
  destruct (_get_command line) as [c|] eqn:Hc; [|done].
  rewrite bool_decide_eq_false_2; [done|].
  intros ->%list_elem_of_singleton. done.
Qed.

End Rejected.

Lemma recv_raises_unexpected_response_witness :
  @_recv wire_table [MSG; PING; OK] (connected ("PONG" ++ CRLF ++ "PING" ++ CRLF))
  = (set_socket_file (λ _, Some (SocketFile ("PING" ++ CRLF) false))
       (connected ("PONG" ++ CRLF ++ "PING" ++ CRLF)),
     Raise (UnexpectedResponse ("PONG" ++ CRLF))).
Proof.
  apply (@recv_raises_unexpected_response wire_table
           (connected ("PONG" ++ CRLF ++ "PING" ++ CRLF))
           (SocketFile ("PONG" ++ CRLF ++ "PING" ++ CRLF) false)
           [MSG; PING; OK]); [reflexivity..|].
  intros c Hc. vm_compute in Hc. injection Hc as <-.
  rewrite !elem_of_cons, elem_of_nil. intros [?|[?|[?|[]]]]; discriminate.
Defined.

Lemma recv_raises_unknown_response_witness :
  @_recv wire_table [MSG; PING; OK] (connected ("PING now" ++ CRLF))
  = (set_socket_file (λ _, Some (SocketFile "" false))
       (connected ("PING now" ++ CRLF)),
     Raise (UnknownResponse PING ("PING now" ++ CRLF))).
Proof.
  apply (@recv_raises_unknown_response wire_table
           (connected ("PING now" ++ CRLF))
           (SocketFile ("PING now" ++ CRLF) false) PING [MSG; PING; OK]);
    [reflexivity..| |reflexivity].
  set_solver.
Defined.

Lemma wait_at_end_of_stream_raises_witness :
  @wait wire_table frozen_clock None 0 (connected "")
  = (set_socket_file (λ _, Some (SocketFile "" false))
       (set_ticks S (connected "")),
     Raise (UnexpectedResponse "")).
Proof.
  apply (@wait_at_end_of_stream_raises wire_table frozen_clock (connected "")
           None 0); reflexivity.
Defined.

Lemma ping_returns_on_pong_witness :
  @ping wire_table (connected ("PONG" ++ CRLF))
  = (set_socket_file (λ _, Some (SocketFile "" false))
       (set_socket (λ _, Some (Socket ["PING" ++ CRLF] false))
          (connected ("PONG" ++ CRLF))),
     Return tt).
Proof.
  apply (@ping_returns_on_pong wire_table (connected ("PONG" ++ CRLF))
           (Socket [] false) ∅ ""); [reflexivity..|].
  exists (SocketFile ("PONG" ++ CRLF) false), ("PONG" ++ CRLF).
  repeat split; reflexivity.
Defined.

Lemma ping_raises_on_other_line_witness :
  @ping wire_table (connected two_frames)
  = (set_socket_file
       (λ _, Some (SocketFile ("hi" ++ CRLF ++ "MSG foo 1 2" ++ CRLF
                               ++ "yo" ++ CRLF) false))
       (set_socket (λ _, Some (Socket ["PING" ++ CRLF] false))
          (connected two_frames)),
     Raise (UnexpectedResponse ("MSG foo 1 2" ++ CRLF))).
Proof.
  apply (@ping_raises_on_other_line wire_table (connected two_frames)
           (Socket [] false) (SocketFile two_frames false));
    [reflexivity..|].
  vm_compute. discriminate.
Defined.

(** ** When the socket does not take data *)

(** X6: on a session whose socket is missing or down, [publish],
    [unsubscribe] and [ping] raise, [AttributeError] before [connect] and
    [SocketError] on a socket that is down, and leave the session exactly as
    it was: nothing is sent, nothing is read, and the subscription handed
    to [unsubscribe] stays registered. *)
Theorem sending_on_dead_socket_raises `{!CommandTable} st subject msg reply
    subscription :
  (∀ sk, _socket st = Some sk → sock_down sk = true) →
  let e := match _socket st with Some _ => SocketError
                               | None => AttributeError end in
  publish subject msg reply st = (st, Raise e)
  ∧ unsubscribe subscription st = (st, Raise e)
  ∧ ping st = (st, Raise e).
Proof.
  intros Hdown e.
  assert (∀ command, _send command st = (st, Raise e)) as Hsend.
  { intros command. unfold _send, SocketError_wrap, sendall, e.
    destruct (_socket st) as [sk|]; [|done]. by rewrite (Hdown sk). }
  unfold publish, unsubscribe, ping, mbind, M_bind, bind.
  by rewrite !Hsend.
Qed.

Lemma sending_on_dead_socket_raises_witness :
  let s := Subscription.Subscription 1 "foo" "" on_message in
  publish "foo" "hi" None Connection = (Connection, Raise AttributeError)
  ∧ unsubscribe s Connection = (Connection, Raise AttributeError)
  ∧ @ping wire_table Connection = (Connection, Raise AttributeError).
Proof.
  apply (@sending_on_dead_socket_raises wire_table Connection "foo" "hi" None
           (Subscription.Subscription 1 "foo" "" on_message)).
  intros sk Hsk. discriminate Hsk.
Defined.

(** X7: [subscribe] on such a session raises the same way, but only after
    it has put the new subscription into the registry: the entry stays
    there under the id of the counter, and the counter is not advanced. *)
Theorem subscribe_on_dead_socket_keeps_entry st subject callback :
  (∀ sk, _socket st = Some sk → sock_down sk = true) →
  let e := match _socket st with Some _ => SocketError
                               | None => AttributeError end in
  let s := Subscription.Subscription (_next_sid st) subject "" callback in
  subscribe subject callback st
  = (set_subscriptions <[_next_sid st := s]> st, Raise e).
Proof.
  intros Hdown e s.
  unfold subscribe, mbind, M_bind, bind, gets, modify, _send,
    SocketError_wrap, sendall, e. cbn.
  destruct (_socket st) as [sk|]; [|done]. by rewrite (Hdown sk).
Qed.

Lemma subscribe_on_dead_socket_keeps_entry_witness :
  let s := Subscription.Subscription 1 "foo" "" on_message in
  subscribe "foo" on_message Connection
  = (set_subscriptions <[1 := s]> Connection, Raise AttributeError).
Proof.
  apply (subscribe_on_dead_socket_keeps_entry Connection "foo" on_message).
  intros sk Hsk. discriminate Hsk.
Defined.

(** ** subscribe and unsubscribe together *)

Lemma append_assoc s t u : (s ++ t) ++ u = s ++ (t ++ u).
Proof. induction s as [|c s IH]; [done|]. by rewrite !append_cons, IH. Qed.

(** X8: on a session whose socket accepts data, [subscribe] registers a
    subscription with the id of the counter, the given subject and callback
    and an empty queue, sends the one frame [SUB <subject>  <sid>] (two
    spaces, around the empty queue), moves the counter up by one and
    returns the subscription. *)
Theorem subscribe_registers_and_sends st sk subject callback :
  _socket st = Some sk → sock_down sk = false →
  let s := Subscription.Subscription (_next_sid st) subject "" callback in
  let frame := "SUB " ++ subject ++ "  " ++ pretty (_next_sid st) ++ CRLF in
  subscribe subject callback st
  = (set_next_sid (λ n, n + 1)
       (set_socket (λ _, Some (Socket (sock_sent sk ++ [frame])%list false))
          (set_subscriptions <[_next_sid st := s]> st)),
     Return s).
Proof.
  intros Hs Hd s frame.
  unfold subscribe, mbind, M_bind, bind, gets, modify. cbn.
  erewrite (_send_up (set_subscriptions _ st) sk) by done.
  cbn. unfold frame. repeat f_equal. by rewrite !append_assoc.
Qed.

Lemma subscribe_registers_and_sends_witness :
  let s := Subscription.Subscription 1 "foo" "" on_message in
  subscribe "foo" on_message (connected "")
  = (set_next_sid (λ n, n + 1)
       (set_socket (λ _, Some (Socket ["SUB foo  1" ++ CRLF] false))
          (set_subscriptions <[1 := s]> (connected ""))),
     Return s).
Proof.
  exact (subscribe_registers_and_sends (connected "") (Socket [] false)
           "foo" on_message eq_refl eq_refl).
Defined.

(** X9: on a session whose socket accepts data and whose registered ids are
    all below the counter, [subscribe] followed by [unsubscribe] of the
    subscription it returned leaves the registry exactly as it was before;
    the counter has moved up by one, so the id is not handed out again, and
    the two frames [SUB] and [UNSUB] have been sent in that order. *)
Theorem subscribe_then_unsubscribe_restores_registry st sk subject callback :
  _socket st = Some sk → sock_down sk = false →
  ids_below_next st →
  let sub := "SUB " ++ subject ++ "  " ++ pretty (_next_sid st) ++ CRLF in
  let unsub := "UNSUB " ++ pretty (_next_sid st) ++ CRLF in
  (s ← subscribe subject callback; unsubscribe s) st
  = (set_next_sid (λ n, n + 1)
       (set_socket
          (λ _, Some (Socket (sock_sent sk ++ [sub; unsub])%list false)) st),
     Return tt).
Proof.
  intros Hs Hd Hinv sub unsub.
  assert (_subscriptions st !! _next_sid st = None) as Hfresh.
  { destruct (_subscriptions st !! _next_sid st) eqn:Hk; [|done].
    specialize (Hinv (_next_sid st)). rewrite Hk in Hinv.
    specialize (Hinv (mk_is_Some _ _ eq_refl)). lia. }
  unfold mbind at 1, M_bind at 1, bind at 1.
  unfold subscribe, mbind, M_bind, bind, gets, modify. cbn.
  erewrite (_send_up (set_subscriptions _ st) sk) by done. cbn.
  unfold unsubscribe, mbind, M_bind, bind. cbn [Subscription.sid].
  erewrite (_send_up (set_next_sid _ _)) by reflexivity.
  unfold subscriptions_pop. cbn. rewrite lookup_insert_eq. cbn.
  unfold mret, M_ret, ret, set_subscriptions, set_next_sid, set_socket. cbn.
  rewrite delete_insert_eq, (delete_id _ _ Hfresh).
  unfold sub, unsub. rewrite <- !app_assoc. cbn.
  by rewrite !append_assoc.
Qed.

Lemma subscribe_then_unsubscribe_restores_registry_witness :
  (s ← subscribe "foo" on_message; unsubscribe s) (connected "")
  = (set_next_sid (λ n, n + 1)
       (set_socket
          (λ _, Some (Socket ["SUB foo  1" ++ CRLF; "UNSUB 1" ++ CRLF] false))
          (connected "")),
     Return tt).
Proof.
  apply (subscribe_then_unsubscribe_restores_registry (connected "")
           (Socket [] false) "foo" on_message eq_refl eq_refl).
  intros k [s Hs]. discriminate Hs.
Defined.

(** X10: on a session whose socket accepts data, [unsubscribe] of a
    subscription whose id is registered sends [UNSUB <sid>], removes the
    entry registered under that id, whichever subscription that is, keeps
    every other entry, and returns; a second [unsubscribe] of the same
    subscription then raises [KeyError]. *)
Theorem unsubscribe_removes_only_that_id st sk subscription s :
  _socket st = Some sk → sock_down sk = false →
  let sid := Subscription.sid subscription in
  _subscriptions st !! sid = Some s →
  let frame := "UNSUB " ++ pretty sid ++ CRLF in
  let st' := state_after (unsubscribe subscription) st in
  unsubscribe subscription st
  = (set_subscriptions (delete sid)
       (set_socket (λ _, Some (Socket (sock_sent sk ++ [frame])%list false))
          st),
     Return tt)
  ∧ _subscriptions st' !! sid = None
  ∧ (∀ k, k ≠ sid → _subscriptions st' !! k = _subscriptions st !! k)
  ∧ outcome (unsubscribe subscription) st' = Raise (KeyError (pretty sid)).
Proof.
  intros Hs Hd sid Hreg frame st'.
  assert (unsubscribe subscription st
          = (set_subscriptions (delete sid)
               (set_socket
                  (λ _, Some (Socket (sock_sent sk ++ [frame])%list false)) st),
             Return tt)) as Heq.
  { unfold unsubscribe, mbind, M_bind, bind.
    rewrite (_send_up st sk _ Hs Hd). fold sid frame.
    unfold subscriptions_pop. cbn [_subscriptions set_socket].
    by rewrite Hreg. }
  unfold st', state_after. rewrite Heq. cbn [fst _subscriptions].
  split; [done|]. split; [apply lookup_delete_eq|].
  split; [intros k Hk; by apply lookup_delete_ne|].
  unfold outcome, unsubscribe, mbind, M_bind, bind.
  erewrite (_send_up (set_subscriptions _ _)) by reflexivity.
  unfold subscriptions_pop. cbn [_subscriptions set_socket set_subscriptions].
  fold sid. by rewrite lookup_delete_eq.
Qed.

Lemma unsubscribe_removes_only_that_id_witness :
  let s := Subscription.Subscription 1 "foo" "" on_message in
  let st := state_after (subscribe "foo" on_message;;
                         subscribe "bar" on_message) (connected "") in
  let st' := state_after (unsubscribe s) st in
  unsubscribe s st
  = (set_subscriptions (delete 1)
       (set_socket
          (λ _, Some (Socket ["SUB foo  1" ++ CRLF; "SUB bar  2" ++ CRLF;
                              "UNSUB 1" ++ CRLF] false)) st),
     Return tt)
  ∧ _subscriptions st' !! 1 = None
  ∧ (∀ k, k ≠ 1 → _subscriptions st' !! k = _subscriptions st !! k)
  ∧ outcome (unsubscribe s) st' = Raise (KeyError "1").
Proof.
  exact (unsubscribe_removes_only_that_id
           (state_after (subscribe "foo" on_message;;
                         subscribe "bar" on_message) (connected ""))
           (Socket ["SUB foo  1" ++ CRLF; "SUB bar  2" ++ CRLF] false)
           (Subscription.Subscription 1 "foo" "" on_message)
           (Subscription.Subscription 1 "foo" "" on_message)
           eq_refl eq_refl eq_refl).
Defined.

(** ** More on the receive loop *)

(** X11: when the subscription id of a matched [MSG] line is not a number,
    or the id is one and the size is not, [_handle_msg] raises the error of
    [int()] and does not touch the session: the payload line is not read
    and no callback runs. *)
Theorem handle_msg_rejects_malformed_numbers st result x y e :
  result !! "sid" = Some x → result !! "size" = Some y →
  int x = Raise e ∨ (∃ sid, int x = Return sid) ∧ int y = Raise e →
  _handle_msg result st = (st, Raise e).
Proof.
  intros Hx Hy Hbad.
  unfold _handle_msg, mbind, M_bind, bind, lift, getitem. rewrite Hx, Hy.
  destruct Hbad as [->|[[sid ->] ->]]; done.
Qed.

Lemma handle_msg_rejects_malformed_numbers_witness :
  _handle_msg (msg_groups "foo" "1" None "2x") (connected ("hi" ++ CRLF))
  = (connected ("hi" ++ CRLF), Raise ValueError).
Proof.
  apply (handle_msg_rejects_malformed_numbers (connected ("hi" ++ CRLF))
           (msg_groups "foo" "1" None "2x") (Some "1") (Some "2x") ValueError);
    [reflexivity..|].
  right. split; [by exists 1|reflexivity].
Defined.

Lemma _handle_msg_returned result st st' r :
  _handle_msg result st = (st', Return r) →
  ∃ s msg,
    _subscriptions st !! Message.sid msg = Some s
    ∧ r = Subscription.handle_msg s msg
    ∧ delivered st' = (delivered st ++ [msg])%list
    ∧ _subscriptions st' = _subscriptions st.
Proof.
  unfold _handle_msg, mbind, M_bind, bind, lift, gets, raise, call_handle_msg,
    SocketError_wrap, readline.
  intros Heq. repeat case_match; simplify_eq/=.
  all: eexists _, (Message.Message _ _ _ _); cbn; eauto.
Qed.

Section Turns.
Context `{!CommandTable, !Clock}.

Lemma _recv_keeps expected_commands st :
  _subscriptions (_recv expected_commands st).1 = _subscriptions st
  ∧ delivered (_recv expected_commands st).1 = delivered st
  ∧ ticks (_recv expected_commands st).1 = ticks st.
Proof.
  unfold _recv, mbind, M_bind, bind, SocketError_wrap, readline, raise.
  repeat case_match; simplify_eq/=; done.
Qed.

Lemma duration_test_keeps duration start st :
  _subscriptions (duration_test duration start st).1 = _subscriptions st
  ∧ delivered (duration_test duration start st).1 = delivered st.
Proof. unfold duration_test. by destruct (duration_set duration). Qed.

(** With no count and no duration, a turn that takes the [break] has just
    handed a message to a callback that returned [False]. *)
Lemma wait_body_returned duration count start total st st' stop total' :
  duration_set duration = false → truthy count = false →
  wait_body duration count start total st = (st', Return (stop, total')) →
  _subscriptions st' = _subscriptions st
  ∧ (stop = true →
     ∃ s msg, last (delivered st') = Some msg
              ∧ _subscriptions st' !! Message.sid msg = Some s
              ∧ Subscription.handle_msg s msg = PyBool false).
Proof.
  intros Hd Hc. unfold wait_body. unfold mbind at 1, M_bind at 1, bind at 1.
  destruct (_recv_keeps [MSG; PING; OK] st) as (Hreg & _).
  destruct (_recv [MSG; PING; OK] st) as [st1 [[type result]|e|]]; [|done..].
  cbn [fst] in Hreg.
  assert (∀ st2 : State,
    (stop0 ← duration_test duration start; mret (stop0, total)) st2
    = (st2, Return (false, total))) as Htest.
  { intros st2. unfold mbind, M_bind, bind.
    by rewrite duration_test_unset. }
  destruct type.
  - unfold mbind at 1, M_bind at 1, bind at 1.
    destruct (_handle_msg result st1) as [st2 [r|e|]] eqn:Hmsg; [|done..].
    apply _handle_msg_returned in Hmsg as (s & msg & Hs & -> & Hdel & Hreg2).
    destruct (is_False _) eqn:Hfalse.
    + intros Heq; cbv [mret M_ret ret] in Heq; simplify_eq. split; [congruence|]. intros _.
      exists s, msg. rewrite Hdel, last_snoc, Hreg2. split; [done|].
      split; [done|]. unfold is_False in Hfalse. by repeat case_match.
    + rewrite Hc. cbn [andb]. unfold mbind, M_bind, bind.
      rewrite duration_test_unset by done.
      intros Heq; cbv [mret M_ret ret] in Heq; simplify_eq. split; [congruence|done].
  - rewrite Htest. intros Heq; cbv [mret M_ret ret] in Heq; simplify_eq. done.
  - unfold mbind at 1, M_bind at 1, bind at 1. unfold _handle_ping.
    pose proof (_send_frame st1 "PONG") as (_ & Hreg2 & _).
    destruct (_send "PONG" st1) as [st2 [[]|e|]]; [|done..].
    rewrite Htest. intros Heq; cbv [mret M_ret ret] in Heq; simplify_eq.
    cbn in Hreg2. split; [congruence|done].
  - rewrite Htest. intros Heq; cbv [mret M_ret ret] in Heq; simplify_eq. done.
  - rewrite Htest. intros Heq; cbv [mret M_ret ret] in Heq; simplify_eq. done.
Qed.

(** X12: with no count and no duration given, [wait] does not return on
    its own: whenever it returns, the last thing it did was to hand a
    message to the callback of a registered subscription, and that callback
    returned the object [False]. *)
Theorem wait_returns_only_on_False st st' duration count :
  duration_set duration = false → truthy count = false →
  wait duration count st = (st', Return tt) →
  ∃ s msg, last (delivered st') = Some msg
           ∧ _subscriptions st' !! Message.sid msg = Some s
           ∧ Subscription.handle_msg s msg = PyBool false.
Proof.
  intros Hd Hc.
  assert (∀ fuel start total st0,
    wait_loop fuel duration count start total st0 = (st', Return tt) →
    ∃ s msg, last (delivered st') = Some msg
             ∧ _subscriptions st' !! Message.sid msg = Some s
             ∧ Subscription.handle_msg s msg = PyBool false) as Hloop.
  { induction fuel as [|fuel IH]; intros start total st0;
      [by unfold wait_loop, lift|].
    cbn [wait_loop]. unfold mbind at 1, M_bind at 1, bind at 1.
    destruct (wait_body duration count start total st0)
      as [st1 [[stop total1]|e|]] eqn:Hbody; [|done..].
    apply (wait_body_returned _ _ _ _ _ _ _ _ Hd Hc) in Hbody as [_ Hstop].
    destruct stop; [|apply IH].
    intros Heq; cbv [mret M_ret ret] in Heq; simplify_eq. by apply Hstop. }
  unfold wait, mbind, M_bind, bind, time, gets. apply Hloop.
Qed.

End Turns.
Lemma wait_returns_only_on_False_witness :
  let st :=
    state_after (subscribe "foo" on_message_stop) (connected two_frames) in
  ∃ s msg,
    last (delivered (state_after (@wait wire_table frozen_clock None 0) st))
    = Some msg
    ∧ _subscriptions (state_after (@wait wire_table frozen_clock None 0) st)
      !! Message.sid msg = Some s
    ∧ Subscription.handle_msg s msg = PyBool false.
Proof.
  apply (@wait_returns_only_on_False wire_table frozen_clock
           (state_after (subscribe "foo" on_message_stop)
              (connected two_frames)) _ None 0); reflexivity.
Defined.

Section MoreTurns.
Context `{!CommandTable, !Clock}.

(** X13: a turn of the loop on a [MSG] line for a registered subscription,
    with no count and no duration given: the header and the payload line
    are taken off the stream, the message is handed to the callback, [total]
    goes up by one, and the [break] is taken exactly when the callback
    returned the object [False]; [None], [0] or an empty string do not end
    the loop. *)
Theorem message_turn_breaks_iff_False st result rest sid size reply s duration
    start total :
  next_line st MSG result rest →
  msg_fields result sid size reply →
  _subscriptions st !! sid = Some s →
  duration_set duration = false →
  let msg :=
    Message.Message sid size (strip (readline_of rest).1) (strip <$> reply) in
  wait_body duration 0 start total st
  = (set_delivered (λ l, (l ++ [msg])%list)
       (set_socket_file (λ _, Some (SocketFile (readline_of rest).2 false)) st),
     Return (is_False (Subscription.callback s msg), total + 1)).
Proof.
  intros Hnext Hfields Hreg Hd msg.
  rewrite (wait_body_msg st result rest) by done.
  unfold mbind at 1, M_bind at 1, bind at 1.
  rewrite (_handle_msg_step _ (SocketFile rest false) result sid size reply)
    by done.
  cbn [_subscriptions set_socket_file file_pending]. rewrite Hreg.
  fold msg. unfold Subscription.handle_msg.
  destruct (is_False _); [done|]. cbn [truthy Z.eqb negb andb].
  unfold mbind, M_bind, bind. by rewrite duration_test_unset.
Qed.

(** X14: a turn of the loop on a [+OK] line, with no duration given: the
    line is taken off the stream and nothing else happens; nothing is sent,
    no callback runs, the line does not count as a message, and the loop
    goes on. *)
Theorem ok_line_is_skipped st result rest duration count start total :
  next_line st OK result rest →
  duration_set duration = false →
  wait_body duration count start total st
  = (set_socket_file (λ _, Some (SocketFile rest false)) st,
     Return (false, total)).
Proof.
  intros Hnext Hd. unfold wait_body.
  unfold mbind at 1, M_bind at 1, bind at 1.
  rewrite (_recv_next st OK result rest) by (done || set_solver).
  unfold mbind, M_bind, bind. by rewrite duration_test_unset.
Qed.

(** X15: provided the empty string is no verb of the command table, a
    turn of the loop that does not raise has taken at least one byte off
    the stream: the loop never goes round without reading. *)
Theorem wait_turn_consumes_input duration count start total st st' a :
  commands !! "" = None →
  wait_body duration count start total st = (st', Return a) →
  (String.length (pending st') < String.length (pending st))%nat.
Proof. apply wait_body_consumes. Qed.

(** X16: for every count of at least one, [wait] returns after the first
    message: on a [MSG] line for a registered subscription it reads the
    clock once, takes the header and the payload line off the stream, hands
    the message to the callback and returns, whatever the callback returned
    and however large the count. *)
Theorem wait_with_count_returns_after_first_message st result rest sid size
    reply s duration count :
  next_line st MSG result rest →
  msg_fields result sid size reply →
  _subscriptions st !! sid = Some s →
  1 ≤ count →
  let msg :=
    Message.Message sid size (strip (readline_of rest).1) (strip <$> reply) in
  wait duration count st
  = (set_delivered (λ l, (l ++ [msg])%list)
       (set_socket_file (λ _, Some (SocketFile (readline_of rest).2 false))
          (set_ticks S st)),
     Return tt).
Proof.
  intros Hnext Hfields Hreg Hcount msg.
  unfold wait, mbind, M_bind, bind, time, gets, wait_fuel.
  cbn [wait_loop]. unfold mbind at 1, M_bind at 1, bind at 1.
  rewrite (wait_body_msg (set_ticks S st) result rest) by done.
  unfold mbind at 1, M_bind at 1, bind at 1.
  rewrite (_handle_msg_step _ (SocketFile rest false) result sid size reply)
    by done.
  cbn [_subscriptions set_socket_file set_ticks file_pending]. rewrite Hreg.
  fold msg. destruct (is_False _); [done|].
  assert (truthy count && (count >=? 0 + 1) = true) as ->; [|done].
  unfold truthy. apply andb_true_intro. split.
  - apply negb_true_iff, Z.eqb_neq. lia.
  - apply Z.geb_le. lia.
Qed.

End MoreTurns.

Section Duration.
Context `{!CommandTable, !Clock}.

Lemma duration_test_then (start : Q) (total : Z) duration st :
  duration_set duration = true →
  (∀ n, (time_time n <= time_time (S n))%Q) → (0 < start)%Q →
  (stop ← duration_test duration start; mret (stop, total)) st
  = (set_ticks (λ n, S (S n)) st, Return (true, total)).
Proof.
  intros Hd Hmono Hstart.
  pose proof (duration_test_succeeds duration start st Hd (Hmono _) Hstart)
    as Htrue.
  unfold mbind, M_bind, bind. rewrite duration_test_set in * by done.
  cbn [snd] in Htrue. by injection Htrue as ->.
Qed.

Lemma wait_body_stops duration count start total st st' stop total' :
  duration_set duration = true →
  (∀ n, (time_time n <= time_time (S n))%Q) → (0 < start)%Q →
  wait_body duration count start total st = (st', Return (stop, total')) →
  stop = true.
Proof.
  intros Hd Hmono Hstart. unfold wait_body.
  unfold mbind at 1, M_bind at 1, bind at 1.
  destruct (_recv [MSG; PING; OK] st) as [st1 [[type result]|e|]]; [|done..].
  destruct type; rewrite ?duration_test_then by done.
  - unfold mbind at 1, M_bind at 1, bind at 1.
    destruct (_handle_msg result st1) as [st2 [r|e|]]; [|done..].
    repeat case_match; rewrite ?duration_test_then by done;
      intros Heq; cbv [mret M_ret ret] in Heq; by simplify_eq.
  - intros Heq; by simplify_eq.
  - unfold mbind at 1, M_bind at 1, bind at 1.
    destruct (_handle_ping st1) as [st2 [[]|e|]]; [|done..].
    rewrite duration_test_then by done. intros Heq; by simplify_eq.
  - intros Heq; by simplify_eq.
  - intros Heq; by simplify_eq.
Qed.

(** X17: when a duration other than zero is given, the clock does not run
    backwards and its reading at the start is positive, [wait] is one turn
    of the loop and no more: it reads the clock, handles one line, and
    returns unless that turn raised, whatever the duration and however
    little time has passed. *)
Theorem wait_with_duration_takes_one_turn st duration count :
  duration_set duration = true →
  (∀ n, (time_time n <= time_time (S n))%Q) →
  (0 < time_time (ticks st))%Q →
  wait duration count st
  = (start ← time; wait_body duration count start 0;; mret tt) st.
Proof.
  intros Hd Hmono Hstart.
  unfold wait, mbind, M_bind, bind, time, gets, wait_fuel.
  cbn [wait_loop]. unfold mbind, M_bind, bind.
  destruct (wait_body duration count (time_time (ticks st)) 0 (set_ticks S st))
    as [st1 [[stop total]|e|]] eqn:Hbody; [|done..].
  by rewrite (wait_body_stops _ _ _ _ _ _ _ _ Hd Hmono Hstart Hbody).
Qed.

End Duration.

Lemma message_turn_breaks_iff_False_witness :
  let st :=
    state_after (subscribe "foo" on_message_zero) (connected two_frames) in
  let msg := Message.Message 1 2 "hi" None in
  @wait_body wire_table frozen_clock None 0 1000%Q 0 st
  = (set_delivered (λ l, (l ++ [msg])%list)
       (set_socket_file
          (λ _, Some (SocketFile ("MSG foo 1 2" ++ CRLF ++ "yo" ++ CRLF) false))
          st),
     Return (false, 1)).
Proof.
  apply (@message_turn_breaks_iff_False wire_table frozen_clock
           (state_after (subscribe "foo" on_message_zero)
              (connected two_frames))
           (msg_groups "foo" "1" None "2")
           ("hi" ++ CRLF ++ "MSG foo 1 2" ++ CRLF ++ "yo" ++ CRLF) 1 2 None
           (Subscription.Subscription 1 "foo" "" on_message_zero)
           None 1000%Q 0).
  - exists (SocketFile two_frames false), ("MSG foo 1 2" ++ CRLF).
    repeat split; reflexivity.
  - repeat split; try (eexists; split; reflexivity); reflexivity.
  - reflexivity.
  - reflexivity.
Defined.

Lemma ok_line_is_skipped_witness :
  @wait_body wire_table frozen_clock None 2 1000%Q 0
    (connected ("+OK" ++ CRLF ++ two_frames))
  = (set_socket_file (λ _, Some (SocketFile two_frames false))
       (connected ("+OK" ++ CRLF ++ two_frames)),
     Return (false, 0)).
Proof.
  apply (@ok_line_is_skipped wire_table frozen_clock
           (connected ("+OK" ++ CRLF ++ two_frames)) ∅ two_frames
           None 2 1000%Q 0); [|reflexivity].
  exists (SocketFile ("+OK" ++ CRLF ++ two_frames) false), ("+OK" ++ CRLF).
  repeat split; reflexivity.
Defined.

Lemma wait_turn_consumes_input_witness :
  let st := connected ("+OK" ++ CRLF ++ two_frames) in
  let st' := set_socket_file (λ _, Some (SocketFile two_frames false)) st in
  (String.length (pending st') < String.length (pending st))%nat.
Proof.
  exact (@wait_turn_consumes_input wire_table frozen_clock None 2 1000%Q 0
           (connected ("+OK" ++ CRLF ++ two_frames))
           (set_socket_file (λ _, Some (SocketFile two_frames false))
              (connected ("+OK" ++ CRLF ++ two_frames)))
           (false, 0) eq_refl eq_refl).
Defined.

Lemma wait_with_count_returns_after_first_message_witness :
  let st := state_after (subscribe "foo" on_message) (connected two_frames) in
  let msg := Message.Message 1 2 "hi" None in
  @wait wire_table frozen_clock None 5 st
  = (set_delivered (λ l, (l ++ [msg])%list)
       (set_socket_file
          (λ _, Some (SocketFile ("MSG foo 1 2" ++ CRLF ++ "yo" ++ CRLF) false))
          (set_ticks S st)),
     Return tt).
Proof.
  apply (@wait_with_count_returns_after_first_message wire_table frozen_clock
           (state_after (subscribe "foo" on_message) (connected two_frames))
           (msg_groups "foo" "1" None "2")
           ("hi" ++ CRLF ++ "MSG foo 1 2" ++ CRLF ++ "yo" ++ CRLF) 1 2 None
           (Subscription.Subscription 1 "foo" "" on_message) None 5).
  - exists (SocketFile two_frames false), ("MSG foo 1 2" ++ CRLF).
    repeat split; reflexivity.
  - repeat split; try (eexists; split; reflexivity); reflexivity.
  - reflexivity.
  - lia.
Defined.

Lemma wait_with_duration_takes_one_turn_witness :
  let st := connected ("PING" ++ CRLF ++ two_frames) in
  @wait wire_table ticking_clock (Some 3600%Q) 0 st
  = (start ← @time ticking_clock;
     @wait_body wire_table ticking_clock (Some 3600%Q) 0 start 0;; mret tt) st.
Proof.
  apply (@wait_with_duration_takes_one_turn wire_table ticking_clock
           (connected ("PING" ++ CRLF ++ two_frames)) (Some 3600%Q) 0).
  - reflexivity.
  - intros n. cbn. unfold Qle. cbn. lia.
  - reflexivity.
Defined.

(** ** Numbers on the wire *)

Lemma append_nil_r s : s ++ "" = s.
Proof. induction s as [|c s IH]; [done|]. by rewrite append_cons, IH. Qed.

Lemma is_nat_pretty_N_char d :
  (d < 10)%N → Ascii.is_nat (pretty_N_char d) = Some (N.to_nat d).
Proof.
  intros Hd.
  assert (d = 0 ∨ d = 1 ∨ d = 2 ∨ d = 3 ∨ d = 4 ∨ d = 5 ∨ d = 6 ∨ d = 7
          ∨ d = 8 ∨ d = 9)%N as Hcases by lia.
  destruct_or!; by subst.
Qed.

Lemma digits_app s t : ∀ acc,
  digits acc (s ++ t)
  = match digits acc s with Some v => digits v t | None => None end.
Proof.
  induction s as [|c s IH]; intros acc; [done|].
  rewrite append_cons. cbn [digits]. destruct (Ascii.is_nat c); [apply IH|done].
Qed.

Lemma digits_only_app s t :
  digits_only (s ++ t) = digits_only s && digits_only t.
Proof.
  induction s as [|c s IH]; [done|].
  rewrite append_cons. cbn [digits_only]. by rewrite IH, andb_assoc.
Qed.

(** [pretty_N_go x s] puts the decimal digits of [x] in front of [s]. *)
Lemma pretty_N_go_digits x :
  ∃ pre, (∀ s, pretty_N_go x s = pre ++ s)
         ∧ digits_only pre = true
         ∧ digits 0 pre = Some (Z.of_N x)
         ∧ ((0 < x)%N → pre ≠ "").
Proof.
  induction (N.lt_wf_0 x) as [x _ IH].
  destruct (decide (x = 0)%N) as [->|Hx].
  { exists "". repeat split; done || lia. }
  destruct (IH (x `div` 10)%N) as (pre & Hgo & Hdig & Hval & _).
  { apply N.div_lt; lia. }
  pose proof (is_nat_pretty_N_char (x `mod` 10)%N) as Hchar.
  assert (x `mod` 10 < 10)%N as Hlt by (by apply N.mod_lt).
  specialize (Hchar Hlt).
  exists (pre ++ String (pretty_N_char (x `mod` 10)) "").
  split; [|split; [|split]].
  - intros s. rewrite pretty_N_go_step by lia. by rewrite Hgo, append_assoc.
  - rewrite digits_only_app, Hdig. cbn [digits_only andb].
    rewrite Hchar. by rewrite bool_decide_eq_true_2 by by eexists.
  - rewrite digits_app, Hval. cbn [digits]. rewrite Hchar. f_equal.
    rewrite (N.div_mod x 10) at 3 by lia. lia.
  - intros _. by destruct pre.
Qed.

Lemma digit_is_no_space c :
  is_Some (Ascii.is_nat c) → Ascii.is_space c = false.
Proof. destruct c as [[] [] [] [] [] [] [] []]; intros [d Hd]; by cbv in *. Qed.

Lemma rstrip_digits_only s : digits_only s = true → rstrip s = s.
Proof.
  induction s as [|c s IH]; intros Hs; [done|]. cbn [digits_only] in Hs.
  apply andb_prop in Hs as [Hc%bool_decide_eq_true Hs].
  cbn [rstrip]. rewrite (IH Hs), (digit_is_no_space c Hc). by destruct s.
Qed.

Lemma strip_digits_only s : digits_only s = true → strip s = s.
Proof.
  intros Hs. unfold strip. rewrite (rstrip_digits_only s Hs).
  destruct s as [|c s]; [done|]. cbn [digits_only] in Hs.
  apply andb_prop in Hs as [Hc%bool_decide_eq_true _].
  cbn [lstrip]. by rewrite (digit_is_no_space c Hc).
Qed.

Lemma int_digits s z :
  digits_only s = true → s ≠ "" → digits 0 s = Some z →
  int (Some s) = Return z ∧ int (Some ("-" ++ s)) = Return (- z).
Proof.
  intros Hs Hne Hz. split.
  - unfold int. rewrite (strip_digits_only s Hs).
    destruct s as [|c s]; [done|]. cbn [digits_only] in Hs.
    apply andb_prop in Hs as [Hc%bool_decide_eq_true _].
    assert ((if decide (c = "-"%char) then false
             else if decide (c = "+"%char) then false else true) = true)
      as Hsign.
    { destruct Hc as [d Hd]. repeat case_decide; by subst. }
    destruct c as [[] [] [] [] [] [] [] []]; try discriminate Hsign;
      unfold unsigned; by rewrite Hz.
  - unfold int.
    assert (strip ("-" ++ s) = String "-"%char s) as ->.
    { unfold strip. rewrite append_cons. cbn [rstrip].
      change ("" ++ s) with s. rewrite (rstrip_digits_only s Hs).
      by destruct s. }
    unfold unsigned. destruct s as [|c s]; [done|]. by rewrite Hz.
Qed.

(** What ['%d' % z] writes, [int()] reads back. *)
Lemma int_pretty (z : Z) : int (Some (pretty z)) = Return z.
Proof.
  assert (∀ p, ∃ s, pretty (N.pos p) = s ∧ digits_only s = true ∧ s ≠ ""
                    ∧ digits 0 s = Some (Z.pos p)) as Hpos.
  { intros p. destruct (pretty_N_go_digits (N.pos p))
      as (pre & Hgo & Hdig & Hval & Hne).
    exists pre. unfold pretty, pretty_N. rewrite decide_False by done.
    rewrite Hgo, append_nil_r. repeat split; [done| |done].
    apply Hne. lia. }
  destruct z as [|p|p].
  - done.
  - destruct (Hpos p) as (s & Hs & Hdig & Hne & Hval).
    change (pretty (Z.pos p)) with (pretty (N.pos p)). rewrite Hs.
    by apply int_digits.
  - destruct (Hpos p) as (s & Hs & Hdig & Hne & Hval).
    change (pretty (Z.neg p)) with ("-" ++ pretty (N.pos p)). rewrite Hs.
    by apply (int_digits s (Z.pos p)).
Qed.

(** X18: the id that [subscribe] writes into its [SUB] frame comes back to
    the same subscription.  After a [subscribe] on a session whose socket
    accepts data, a matched [MSG] line whose subscription id is the decimal
    text of that frame, and whose size is a number, is handed to the
    callback given to [subscribe], with that id, that size, the stripped
    payload line and the stripped reply subject; [_handle_msg] returns what
    the callback returned. *)
Theorem msg_for_subscribed_sid_reaches_callback st sk f subject callback
    result size reply :
  _socket st = Some sk → sock_down sk = false →
  _socket_file st = Some f → file_down f = false →
  result !! "sid" = Some (Some (pretty (_next_sid st))) →
  (∃ y, result !! "size" = Some y ∧ int y = Return size) →
  result !! "reply" = Some reply →
  let msg :=
    Message.Message (_next_sid st) size
      (strip (readline_of (file_pending f)).1) (strip <$> reply) in
  (subscribe subject callback;; _handle_msg result) st
  = (set_delivered (λ l, (l ++ [msg])%list)
       (set_socket_file
          (λ _, Some (SocketFile (readline_of (file_pending f)).2 false))
          (state_after (subscribe subject callback) st)),
     Return (callback msg)).
Proof.
  intros Hs Hd Hf Hfd Hsid Hsize Hreply msg.
  assert (∃ st1,
    subscribe subject callback st
    = (st1, Return (Subscription.Subscription (_next_sid st) subject ""
                      callback))
    ∧ _socket_file st1 = Some f
    ∧ _subscriptions st1 !! _next_sid st
      = Some (Subscription.Subscription (_next_sid st) subject "" callback))
    as (st1 & Hsub & Hf1 & Hreg).
  { unfold subscribe, mbind, M_bind, bind, gets, modify. cbn.
    erewrite (_send_up (set_subscriptions _ st) sk) by done. cbn.
    eexists. split; [reflexivity|]. cbn. split; [done|].
    apply lookup_insert_eq. }
  unfold state_after. unfold mbind at 1, M_bind at 1, bind at 1.
  rewrite Hsub. cbn [fst].
  rewrite (_handle_msg_step st1 f result (_next_sid st) size reply Hf1 Hfd).
  - by rewrite Hreg.
  - split; [|done]. eexists. split; [exact Hsid|apply int_pretty].
Qed.

Lemma msg_for_subscribed_sid_reaches_callback_witness :
  let st := connected ("hi" ++ CRLF) in
  let msg := Message.Message 1 2 "hi" (Some "inbox") in
  (subscribe "foo" on_message_stop;;
   _handle_msg (msg_groups "foo" "1" (Some "inbox ") "2")) st
  = (set_delivered (λ l, (l ++ [msg])%list)
       (set_socket_file (λ _, Some (SocketFile "" false))
          (state_after (subscribe "foo" on_message_stop) st)),
     Return (PyBool false)).
Proof.
  apply (msg_for_subscribed_sid_reaches_callback (connected ("hi" ++ CRLF))
           (Socket [] false) (SocketFile ("hi" ++ CRLF) false)
           "foo" on_message_stop
           (msg_groups "foo" "1" (Some "inbox ") "2") 2 (Some "inbox "));
    try reflexivity.
  eexists. split; reflexivity.
Defined.

(** ** connect and reconnect *)

Section Connecting.
Context `{!CommandTable, !Environment}.

(** X19: when the broker accepts the connection and the first line it
    writes is a matching [INFO] line, [connect] returns with a new socket
    on which exactly one frame has been sent, [CONNECT] followed by the
    JSON text of the options, and a new file object from which the [INFO]
    line has been read; registry and counter are not touched. *)
Theorem connect_sends_connect_and_reads_info st options result rest :
  connect_refused (url_hostname options) (url_port options) = false →
  (∃ line, readline_of server_bytes = (line, rest)
           ∧ _get_command line = Some INFO
           ∧ command_match INFO line = Some result) →
  let frame := "CONNECT " ++ _build_connect_config options ++ CRLF in
  connect options st
  = (set_socket_file (λ _, Some (SocketFile rest false))
       (set_socket (λ _, Some (Socket [frame] false)) st),
     Return tt).
Proof.
  intros Hacc (line & Hline & Hcmd & Hmatch) frame.
  unfold connect, _build_socket, _connect_socket, _build_file_socket,
    _send_connect_msg.
  unfold mbind, M_bind, bind, modify, SocketError_wrap, socket_connect,
    makefile. cbn. rewrite Hacc. cbn.
  erewrite (_recv_next _ INFO result rest); [|..|set_solver].
  - cbn. unfold frame. by rewrite append_assoc.
  - eexists _, line. cbn. repeat split; done.
Qed.

(** X20: when the broker refuses the connection, [connect] raises
    [SocketError]; the session is left with a new socket that is not
    connected and on which nothing has been sent, and with whatever file
    object it had before. *)
Theorem connect_refused_raises st options :
  connect_refused (url_hostname options) (url_port options) = true →
  connect options st
  = (set_socket (λ _, Some (Socket [] true)) st, Raise SocketError).
Proof.
  intros Href.
  unfold connect, _build_socket, _connect_socket.
  unfold mbind, M_bind, bind, modify, SocketError_wrap, socket_connect.
  cbn. by rewrite Href.
Qed.

(** X21: when the connection is accepted but the first line the broker
    writes is not an [INFO] line, [connect] raises [UnexpectedResponse] with
    that line, after the [CONNECT] frame has been sent. *)
Theorem connect_raises_without_info st options :
  connect_refused (url_hostname options) (url_port options) = false →
  let line := (readline_of server_bytes).1 in
  _get_command line ≠ Some INFO →
  let frame := "CONNECT " ++ _build_connect_config options ++ CRLF in
  connect options st
  = (set_socket_file
       (λ _, Some (SocketFile (readline_of server_bytes).2 false))
       (set_socket (λ _, Some (Socket [frame] false)) st),
     Raise (UnexpectedResponse line)).
Proof.
  intros Hacc line Hverb frame.
  unfold connect, _build_socket, _connect_socket, _build_file_socket,
    _send_connect_msg.
  unfold mbind, M_bind, bind, modify, SocketError_wrap, socket_connect,
    makefile. cbn. rewrite Hacc. cbn.
  unfold _recv, mbind, M_bind, bind.
  erewrite (readline_up (set_socket _ _) (SocketFile server_bytes false))
    by reflexivity.
  cbn [fst snd file_pending]. fold line.
  assert (frame = ("CONNECT " ++ _build_connect_config options) ++ CRLF)
    as <- by (unfold frame; by rewrite append_assoc).
  destruct (_get_command line) as [c|] eqn:Hc; [|done].
  rewrite bool_decide_eq_false_2; [done|].
  intros ->%list_elem_of_singleton. done.
Qed.

Lemma _recv_socket expected_commands st :
  _socket (_recv expected_commands st).1 = _socket st
  ∧ _subscriptions (_recv expected_commands st).1 = _subscriptions st
  ∧ _next_sid (_recv expected_commands st).1 = _next_sid st.
Proof.
  unfold _recv, mbind, M_bind, bind, SocketError_wrap, readline, raise.
  repeat case_match; simplify_eq/=; done.
Qed.

(** X22: [reconnect] is [connect] on the same session, since [close] does
    nothing; whatever its outcome, the registry and the counter are as
    before, and what has been sent on the new socket is at most the
    [CONNECT] frame: no [SUB] frame is sent again for the subscriptions
    that are still registered. *)
Theorem reconnect_keeps_registry_and_sends_no_sub st options :
  let st' := state_after (reconnect options) st in
  let frame := "CONNECT " ++ _build_connect_config options ++ CRLF in
  reconnect options st = connect options st
  ∧ _subscriptions st' = _subscriptions st
  ∧ _next_sid st' = _next_sid st
  ∧ (sent st' = [] ∨ sent st' = [frame]).
Proof.
  intros st' frame. split; [done|].
  unfold st', state_after.
  change (reconnect options st) with (connect options st).
  destruct (connect_refused (url_hostname options) (url_port options))
    eqn:Href.
  { unfold connect, _build_socket, _connect_socket.
    unfold mbind, M_bind, bind, modify, SocketError_wrap, socket_connect.
    cbn. rewrite Href. cbn. auto. }
  assert (connect options st
          = (_recv [INFO];; mret tt)
              (set_socket_file (λ _, Some (SocketFile server_bytes false))
                 (set_socket (λ _, Some (Socket [frame] false)) st)))
    as ->.
  { unfold connect, _build_socket, _connect_socket, _build_file_socket,
      _send_connect_msg.
    unfold mbind at 1 2 3, M_bind at 1 2 3, bind at 1 2 3.
    unfold modify at 1. unfold SocketError_wrap at 1, socket_connect.
    cbn [_socket set_socket]. rewrite Href.
    unfold mbind at 1, M_bind at 1, bind at 1, makefile.
    cbn [_socket set_socket].
    unfold modify. unfold mbind at 1, M_bind at 1, bind at 1.
    erewrite (_send_up (set_socket_file _ _) (Socket [] false)) by reflexivity.
    unfold frame. by rewrite append_assoc. }
  unfold mbind, M_bind, bind.
  match goal with |- context [_recv [INFO] ?s] =>
    destruct (_recv_socket [INFO] s) as (Hsock & Hreg & Hnext);
    destruct (_recv [INFO] s) as [st4 [r|e|]]
  end; cbn in Hsock, Hreg, Hnext; unfold sent; cbn;
    rewrite Hsock, Hreg, Hnext; auto.
Qed.

End Connecting.

Lemma connect_sends_connect_and_reads_info_witness :
  @connect wire_table greeting_broker default_options Connection
  = (set_socket_file (λ _, Some (SocketFile ("PING" ++ CRLF) false))
       (set_socket
          (λ _, Some (Socket ["CONNECT {verbose;pedantic;ssl_required;name;}"
                              ++ CRLF] false)) Connection),
     Return tt).
Proof.
  apply (@connect_sends_connect_and_reads_info wire_table greeting_broker
           Connection default_options ∅ ("PING" ++ CRLF)); [reflexivity|].
  exists ("INFO {}" ++ CRLF). repeat split; reflexivity.
Defined.

Lemma connect_refused_raises_witness :
  @connect wire_table refusing_broker default_options Connection
  = (set_socket (λ _, Some (Socket [] true)) Connection, Raise SocketError).
Proof.
  exact (@connect_refused_raises wire_table refusing_broker Connection
           default_options eq_refl).
Defined.

Lemma connect_raises_without_info_witness :
  @connect wire_table pinging_broker default_options Connection
  = (set_socket_file (λ _, Some (SocketFile "" false))
       (set_socket
          (λ _, Some (Socket ["CONNECT {verbose;pedantic;ssl_required;name;}"
                              ++ CRLF] false)) Connection),
     Raise (UnexpectedResponse ("PING" ++ CRLF))).
Proof.
  apply (@connect_raises_without_info wire_table pinging_broker Connection
           default_options); [reflexivity|].
  vm_compute. discriminate.
Defined.

(** ** The verb of a line *)

Lemma rstrip_after_word v t : no_space v = true → rstrip (v ++ t) = v ++ rstrip t.
Proof.
  induction v as [|c v IH]; intros Hv; [done|]. cbn [no_space] in Hv.
  apply andb_prop in Hv as [Hc%negb_true_iff Hv].
  rewrite !append_cons. cbn [rstrip]. rewrite (IH Hv), Hc.
  by destruct (v ++ rstrip t).
Qed.

Lemma lstrip_word v t :
  v ≠ "" → no_space v = true → lstrip (v ++ t) = v ++ t.
Proof.
  destruct v as [|c v]; intros Hne Hv; [done|]. cbn [no_space] in Hv.
  apply andb_prop in Hv as [Hc%negb_true_iff _].
  rewrite append_cons. cbn [lstrip]. by rewrite Hc.
Qed.

Lemma split_first_word v t :
  no_space v = true → t = "" ∨ (∃ t', t = String " "%char t') →
  split_first (v ++ t) = v.
Proof.
  intros Hv Ht. induction v as [|c v IH].
  { by destruct Ht as [->|[t' ->]]. }
  cbn [no_space] in Hv. apply andb_prop in Hv as [Hc%negb_true_iff Hv].
  rewrite append_cons. cbn [split_first].
  destruct (Ascii.eqb_spec c " "%char) as [->|_]; [done|]. by rewrite (IH Hv).
Qed.

(** X23: the command of a line is looked up under its first word alone.
    For a verb that is not empty and holds no white space, a line made of
    the verb, one space and anything at all, and a line made of the verb
    followed only by white space such as CRLF, are both classified as
    whatever the command table holds for that verb. *)
Theorem get_command_looks_up_first_word `{!CommandTable} verb args ws :
  verb ≠ "" → no_space verb = true → rstrip ws = "" →
  _get_command (verb ++ " " ++ args) = commands !! verb
  ∧ _get_command (verb ++ ws) = commands !! verb.
Proof.
  intros Hne Hverb Hws. unfold _get_command, strip. split.
  - rewrite (rstrip_after_word verb _ Hverb), (lstrip_word verb _ Hne Hverb).
    rewrite split_first_word; [done..|].
    rewrite append_cons. cbn [rstrip].
    destruct (rstrip ("" ++ args)); [by left|right; by eexists].
  - rewrite (rstrip_after_word verb _ Hverb), Hws.
    rewrite (lstrip_word verb _ Hne Hverb).
    rewrite split_first_word; auto.
Qed.

Lemma get_command_looks_up_first_word_witness :
  @_get_command wire_table ("MSG" ++ " " ++ "foo 1 2" ++ CRLF) = Some MSG
  ∧ @_get_command wire_table ("MSG" ++ CRLF) = Some MSG.
Proof.
  exact (@get_command_looks_up_first_word wire_table "MSG" ("foo 1 2" ++ CRLF)
           CRLF ltac:(discriminate) eq_refl eq_refl).
Defined.
